(** * OPUS translation dataset builder (tensorflow_datasets/translate/opus.py)

    A shallow embedding of the OPUS builder: the catalogue of sub-corpora
    with their derived language pairs, the filter that keeps the corpora
    available for the configured pair, the construction of download
    locators and file paths, and the generator that aligns two text files
    line by line.

    Python strings are [string], tuples of two codes are pairs, [dict]s keyed
    by strings are [gmap string _], raised exceptions are the [Raise] case of
    [result], and the two mutable collaborators (the download manager and the
    file store) are threaded explicitly. *)

From Stdlib Require Import Ascii String.
From stdpp Require Import gmap strings list fin_maps pretty sorting.

Open Scope string_scope.
Open Scope list_scope.

(** ** Exceptions and results *)

Inductive Exn : Type :=
  | KeyError (key : string)
  | NotFoundError (path : string)
  | DownloadError (locator : string).

Inductive result (A : Type) : Type :=
  | Ok (a : A)
  | Raise (e : Exn).
Arguments Ok {A} a.
Arguments Raise {A} e.

Definition is_lookup_error (e : Exn) : bool :=
  match e with KeyError _ => true | _ => false end.

(** ** Python built-ins used by the module *)

Definition newline : ascii := "010"%char.

(** [s.split("\n")]: the pieces of [s] between newline characters; the empty
    text gives the single empty piece. *)
Fixpoint split_newline (s : string) : list string :=
  match s with
  | EmptyString => [EmptyString]
  | String c rest =>
      if Ascii.eqb c newline then EmptyString :: split_newline rest
      else match split_newline rest with
           | [] => [String c EmptyString]
           | piece :: pieces => String c piece :: pieces
           end
  end.

(** Truth value of a [str]: only the empty string is false. *)
Definition truthy (s : string) : bool :=
  match s with EmptyString => false | String _ _ => true end.

(** [enumerate(l)] *)
Definition enumerate {A} (l : list A) : list (nat * A) :=
  imap (λ idx x, (idx, x)) l.

Definition startswith_sep (s : string) : bool :=
  match s with String "/" _ => true | _ => false end.

Fixpoint endswith_sep (s : string) : bool :=
  match s with
  | EmptyString => false
  | String c EmptyString => Ascii.eqb c "/"
  | String _ rest => endswith_sep rest
  end.

(** [os.path.join(a, b)] (posixpath, two components). *)
Definition os_path_join (a b : string) : string :=
  if startswith_sep b then b
  else if negb (truthy a) || endswith_sep a then a +:+ b
  else a +:+ "/" +:+ b.

(** ["%d" % idx] *)
Definition fmt_d (idx : nat) : string := pretty idx.

(** ** SubDataset *)

Record SubDataset : Type := {
  name : string;
  description : string;
  homepage : string;
  url : string;
  filename : string;
  language_pairs : list (string * string)
}.

(** The two nested loops of [SubDataset.__init__]: every language is paired
    with each language that comes after it in the list. *)
Definition derive_language_pairs (languages : list string)
  : list (string * string) :=
  concat (imap (λ idx source,
                  (λ target, (source, target)) <$> drop (idx + 1) languages)
               languages).

Definition SubDataset_init (name description homepage url : string)
    (languages : list string) (filename : string) : SubDataset :=
  {| name := name; description := description; homepage := homepage;
     url := url; filename := filename;
     language_pairs := derive_language_pairs languages |}.

(** [{ds.name: ds for ds in l}]: later entries overwrite earlier ones. *)
Definition dict_by_name (l : list SubDataset) : gmap string SubDataset :=
  foldl (λ m ds, <[name ds := ds]> m) ∅ l.

Definition EMEA : SubDataset :=
  SubDataset_init "EMEA"
    "A parallel corpus made out of PDF documents from the European Medicines Agency."
    "http://opus.nlpl.eu/EMEA.php"
    "http://opus.nlpl.eu/download.php?f=EMEA/v3/moses/"
    ["de"; "en"; "es"] "EMEA".

Definition JRC_Acquis : SubDataset :=
  SubDataset_init "JRC-Acquis"
    "A collection of legislative text of the European Union and currently comprises selected texts written between the 1950s and now."
    "http://opus.nlpl.eu/JRC-Acquis.php"
    "http://opus.nlpl.eu/download.php?f=JRC-Acquis/"
    ["de"; "en"; "es"] "JRC-Acquis".

Definition Tanzil : SubDataset :=
  SubDataset_init "Tanzil"
    "A collection of Quran translations compiled by the Tanzil project."
    "http://opus.nlpl.eu/Tanzil.php"
    "http://opus.nlpl.eu/download.php?f=Tanzil/v1/moses/"
    ["de"; "en"; "es"] "Tanzil".

Definition GNOME : SubDataset :=
  SubDataset_init "GNOME"
    "A parallel corpus of GNOME localization files. Source: https://l10n.gnome.org"
    "http://opus.nlpl.eu/GNOME.php"
    "http://opus.nlpl.eu/download.php?f=GNOME/v1/moses/"
    ["de"; "en"; "es"] "GNOME".

Definition KDE4 : SubDataset :=
  SubDataset_init "KDE4"
    "A parallel corpus of KDE4 localization files (v.2)."
    "http://opus.nlpl.eu/KDE4.php"
    "http://opus.nlpl.eu/download.php?f=KDE4/v2/moses/"
    ["de"; "en"; "es"] "KDE4".

Definition PHP : SubDataset :=
  SubDataset_init "PHP"
    "A parallel corpus originally extracted from http://se.php.net/download-docs.php."
    "http://opus.nlpl.eu/PHP.php"
    "http://opus.nlpl.eu/download.php?f=PHP/v1/moses/"
    ["de"; "en"; "es"] "PHP".

Definition Ubuntu : SubDataset :=
  SubDataset_init "Ubuntu"
    "A parallel corpus of Ubuntu localization files. Source: https://translations.launchpad.net"
    "http://opus.nlpl.eu/Ubuntu.php"
    "http://opus.nlpl.eu/download.php?f=Ubuntu/v14.10/moses/"
    ["de"; "en"; "es"] "Ubuntu".

Definition OpenOffice : SubDataset :=
  SubDataset_init "OpenOffice"
    "A collection of documents from http://www.openoffice.org/."
    "http://opus.nlpl.eu/OpenOffice.php"
    "http://opus.nlpl.eu/download.php?f=OpenOffice/v3/moses/"
    ["de"; "en_GB"; "es"] "OpenOffice".

Definition OpenSubtitles : SubDataset :=
  SubDataset_init "OpenSubtitles"
    "A new collection of translated movie subtitles from http://www.opensubtitles.org/"
    "http://opus.nlpl.eu/OpenSubtitles-v2018.php"
    "http://opus.nlpl.eu/download.php?f=OpenSubtitles/v2018/"
    ["de"; "en"; "es"] "OpenSubtitles".

Definition DATASET_LIST : list SubDataset :=
  [EMEA; JRC_Acquis; Tanzil; GNOME; KDE4;
   PHP; Ubuntu; OpenOffice; OpenSubtitles].

Definition DATASET_MAP : gmap string SubDataset := dict_by_name DATASET_LIST.

(** ** OpusConfig and the builder *)

Record OpusConfig : Type := {
  config_name : string;
  config_description : string;
  language_pair : string * string;
  subsets : list string
}.

Definition OpusConfig_init (language_pair : string * string)
    (subsets : list string) : OpusConfig :=
  let name := language_pair.1 +:+ "-" +:+ language_pair.2 in
  let description := name +:+ " documents" in
  {| config_name := name; config_description := description;
     language_pair := language_pair; subsets := subsets |}.

Record Opus : Type := { builder_config : OpusConfig }.

(** [[DATASET_MAP[name] for name in names]]: the comprehension is evaluated
    in full, and the first missing key raises [KeyError]. *)
Fixpoint lookup_datasets (names : list string) : result (list SubDataset) :=
  match names with
  | [] => Ok []
  | name :: rest =>
      match DATASET_MAP !! name with
      | None => Raise (KeyError name)
      | Some dataset =>
          match lookup_datasets rest with
          | Ok datasets => Ok (dataset :: datasets)
          | Raise e => Raise e
          end
      end
  end.

(** The loop of the [subsets] property over the looked-up datasets. *)
Fixpoint filter_loop (source target : string) (datasets : list SubDataset)
    (filtered_subsets : list SubDataset) : list SubDataset :=
  match datasets with
  | [] => filtered_subsets
  | dataset :: rest =>
      if bool_decide ((source, target) ∈ language_pairs dataset)
      then filter_loop source target rest (filtered_subsets ++ [dataset])
      else filter_loop source target rest filtered_subsets
  end.

(** [Opus.subsets] *)
Definition Opus_subsets (self : Opus) : result (list SubDataset) :=
  let '(source, target) := language_pair (builder_config self) in
  match lookup_datasets (subsets (builder_config self)) with
  | Raise e => Raise e
  | Ok datasets => Ok (filter_loop source target datasets [])
  end.

(** ** The download manager

    [dl_manager.download_and_extract(locator)] fetches and unpacks the
    archive at [locator] and returns the directory holding its content, or
    raises.  The manager remembers what it was asked to fetch. *)

Record DownloadManager : Type := {
  extract_dir : string → result string;
  downloaded : list string
}.

Definition download_and_extract (locator : string) (dl_manager : DownloadManager)
  : result string * DownloadManager :=
  (extract_dir dl_manager locator,
   {| extract_dir := extract_dir dl_manager;
      downloaded := downloaded dl_manager ++ [locator] |}).

(** One element of the [subsets] list handed to the generator: the [dict]
    with the keys ["name"], ["source_file"] and ["target_file"]. *)
Record ResolvedSubset : Type := {
  subset_name : string;
  source_file : string;
  target_file : string
}.

Inductive Split : Type := TRAIN | VALIDATION | TEST.

Record SplitGenerator : Type := {
  split_name : Split;
  gen_kwargs : list ResolvedSubset
}.

Definition locator_of (file_ext : string) (item : SubDataset) : string :=
  os_path_join (url item) (file_ext +:+ ".txt.zip").

Definition resolved_of (source target file_ext dl_dir : string)
    (item : SubDataset) : ResolvedSubset :=
  {| subset_name := name item;
     source_file :=
       os_path_join dl_dir (filename item +:+ "." +:+ file_ext +:+ "." +:+ source);
     target_file :=
       os_path_join dl_dir (filename item +:+ "." +:+ file_ext +:+ "." +:+ target) |}.

(** The [for item in self.subsets] loop of [_split_generators]. *)
Fixpoint split_loop (source target file_ext : string) (items : list SubDataset)
    (subsets : list ResolvedSubset) (dl_manager : DownloadManager)
  : result (list ResolvedSubset) * DownloadManager :=
  match items with
  | [] => (Ok subsets, dl_manager)
  | item :: rest =>
      match download_and_extract (locator_of file_ext item) dl_manager with
      | (Raise e, dl_manager) => (Raise e, dl_manager)
      | (Ok dl_dir, dl_manager) =>
          split_loop source target file_ext rest
            (subsets ++ [resolved_of source target file_ext dl_dir item])
            dl_manager
      end
  end.

(** [Opus._split_generators] *)
Definition Opus_split_generators (self : Opus) (dl_manager : DownloadManager)
  : result (list SplitGenerator) * DownloadManager :=
  let '(source, target) := language_pair (builder_config self) in
  let file_ext := source +:+ "-" +:+ target in
  match Opus_subsets self with
  | Raise e => (Raise e, dl_manager)
  | Ok items =>
      match split_loop source target file_ext items [] dl_manager with
      | (Raise e, dl_manager) => (Raise e, dl_manager)
      | (Ok subsets, dl_manager) =>
          (Ok [ {| split_name := TRAIN; gen_kwargs := subsets |} ], dl_manager)
      end
  end.

(** ** The file store

    [with tf.io.gfile.GFile(path) as f: ... f.read() ...]: the file is held
    open for the extent of the block and released when the block is left,
    also when [read] raises because the path does not exist. *)

Record World : Type := {
  files : gmap string string;
  open_handles : list string
}.

Definition GFile_enter (path : string) (w : World) : World :=
  {| files := files w; open_handles := path :: open_handles w |}.

Definition GFile_exit (w : World) : World :=
  {| files := files w; open_handles := tail (open_handles w) |}.

Definition GFile_read (path : string) (w : World) : result string :=
  match files w !! path with
  | Some text => Ok text
  | None => Raise (NotFoundError path)
  end.

Definition read_sentences (path : string) (w : World)
  : result (list string) * World :=
  let w := GFile_enter path w in
  let sentences :=
    match GFile_read path w with
    | Ok text => Ok (split_newline text)
    | Raise e => Raise e
    end in
  (sentences, GFile_exit w).

(** ** Example generation *)

(** A yielded example: the key and the [result] dictionary. *)
Definition Yielded : Type := string * gmap string string.

(** [{source: source_sentence, target: target_sentence}] *)
Definition result_dict (source target source_sentence target_sentence : string)
  : gmap string string :=
  <[target := target_sentence]> (<[source := source_sentence]> ∅).

(** [all(result.values())] *)
Definition all_values (result : gmap string string) : bool :=
  forallb truthy (map_to_list result).*2.

Definition example_key (item_name : string) (idx : nat) : string :=
  item_name +:+ "/" +:+ fmt_d idx.

(** The inner loop over [enumerate(zip(source_sentences, target_sentences))]. *)
Definition pair_loop (item_name source target : string)
    (source_sentences target_sentences : list string) : list Yielded :=
  omap (λ '(idx, (source_sentence, target_sentence)),
          let result :=
            result_dict source target source_sentence target_sentence in
          if all_values result
          then Some (example_key item_name idx, result)
          else None)
       (enumerate (zip source_sentences target_sentences)).

(** [Opus._generate_examples]: the examples yielded, in order, the exception
    that ended the generator if one was raised, and the file store after. *)
Fixpoint Opus_generate_examples (self : Opus) (subsets : list ResolvedSubset)
    (w : World) : (list Yielded * option Exn) * World :=
  match subsets with
  | [] => (([], None), w)
  | item :: rest =>
      match read_sentences (source_file item) w with
      | (Raise e, w) => (([], Some e), w)
      | (Ok source_sentences, w) =>
          match read_sentences (target_file item) w with
          | (Raise e, w) => (([], Some e), w)
          | (Ok target_sentences, w) =>
              let '(source, target) := language_pair (builder_config self) in
              let yielded :=
                pair_loop (subset_name item) source target
                          source_sentences target_sentences in
              let '((more, exn), w) := Opus_generate_examples self rest w in
              ((yielded ++ more, exn), w)
          end
      end
  end.

(** A subset is resolved for a builder when [_split_generators] hands it to
    the generator through the [gen_kwargs] of one of its splits. *)
Definition resolved_for (self : Opus) (item : ResolvedSubset) : Prop :=
  ∃ dl_manager splits dl_manager' split,
    Opus_split_generators self dl_manager = (Ok splits, dl_manager')
    ∧ split ∈ splits ∧ item ∈ gen_kwargs split.

(** ** Predicates and helpers used in the statements *)

(** Number of two-element combinations of [n] things. *)
Definition choose2 (n : nat) : nat := n * (n - 1) / 2.

(** A catalogue entry is filed under its own name, and none of its pairs
    repeats a code or occurs reversed. *)
Definition well_formed_entry (key : string) (ds : SubDataset) : Prop :=
  name ds = key
  ∧ Forall (λ p, p.1 ≠ p.2 ∧ (p.2, p.1) ∉ language_pairs ds) (language_pairs ds).

Global Instance well_formed_entry_dec key ds :
  Decision (well_formed_entry key ds).
Proof. unfold well_formed_entry. apply _. Defined.

(** The membership test of the [subsets] property. *)
Definition supports (source target : string) (ds : SubDataset) : Prop :=
  (source, target) ∈ language_pairs ds.

Global Instance supports_dec source target ds :
  Decision (supports source target ds).
Proof. unfold supports. apply _. Defined.

(** The first name of the list that the catalogue does not know. *)
Fixpoint first_unknown (names : list string) : option string :=
  match names with
  | [] => None
  | key :: rest =>
      match DATASET_MAP !! key with
      | None => Some key
      | Some _ => first_unknown rest
      end
  end.

(** The builder for a language pair and a list of subset names. *)
Definition Opus_for (pair : string * string) (names : list string) : Opus :=
  {| builder_config := OpusConfig_init pair names |}.

(** A subset name is known when the catalogue has it, and supported for a pair
    when its corpus lists that pair. *)
Definition known (key : string) : Prop := is_Some (DATASET_MAP !! key).

Definition supported_name (source target key : string) : Prop :=
  from_option (supports source target) False (DATASET_MAP !! key).

Global Instance known_dec key : Decision (known key).
Proof. unfold known. apply _. Defined.

Global Instance supported_name_dec source target key :
  Decision (supported_name source target key).
Proof. unfold supported_name. destruct (DATASET_MAP !! key); apply _. Defined.

(** The download manager after it has been asked for [locators]. *)
Definition record_download (locators : list string) (dl_manager : DownloadManager)
  : DownloadManager :=
  {| extract_dir := extract_dir dl_manager;
     downloaded := downloaded dl_manager ++ locators |}.

(** ** Sample data *)

(** A builder for German to English over two corpora, a download
    manager that unpacks every archive under one directory, and a file store
    holding the two files of the EMEA corpus. *)
Definition sample_builder : Opus := Opus_for ("de", "en") ["EMEA"; "OpenOffice"].

Definition sample_manager : DownloadManager :=
  {| extract_dir := λ _, Ok "/data/extracted"; downloaded := [] |}.

Definition sample_item : ResolvedSubset :=
  {| subset_name := "EMEA";
     source_file := "/data/extracted/EMEA.de-en.de";
     target_file := "/data/extracted/EMEA.de-en.en" |}.

(** The text made of one newline character. *)
Definition nl : string := String newline EmptyString.

Definition sample_world (stext ttext : string) : World :=
  {| files := <["/data/extracted/EMEA.de-en.en" := ttext]>
                (<["/data/extracted/EMEA.de-en.de" := stext]> ∅);
     open_handles := [] |}.

Definition sample_source_text : string :=
  "Guten Tag" +:+ nl +:+ "  " +:+ nl +:+ "Danke".

Definition sample_target_text : string :=
  "Good day" +:+ nl +:+ " " +:+ nl +:+ "Thanks".

Definition worked_source_text : string :=
  "a" +:+ nl +:+ "b" +:+ nl +:+ nl +:+ "c".

Definition worked_target_text : string :=
  "x" +:+ nl +:+ "y" +:+ nl +:+ "z" +:+ nl +:+ "w".

Definition longer_source_text : string :=
  "eins" +:+ nl +:+ "zwei" +:+ nl +:+ "drei" +:+ nl +:+ "vier".

Definition shorter_target_text : string := "one" +:+ nl +:+ "two".

Definition trailing_source_text : string := "Hallo" +:+ nl +:+ "Welt" +:+ nl.

Definition trailing_target_text : string := "hello" +:+ nl +:+ "world" +:+ nl.

(** ** Module constants and [_info] *)

Definition _CITATION : string :=
  nl +:+ "@inproceedings{Tiedemann2012ParallelData," +:+ nl
     +:+ "  author = {Tiedemann, J}," +:+ nl
     +:+ "  title = {Parallel Data, Tools and Interfaces in OPUS}," +:+ nl
     +:+ "  booktitle = {LREC}" +:+ nl
     +:+ "  year = {2012}}" +:+ nl.

Definition _DESCRIPTION : string :=
  nl +:+ "OPUS is a collection of translated texts from the web." +:+ nl.

(** [tfds.features.Translation(languages=...)]: one text field per language. *)
Record Translation : Type := { languages : string * string }.

(** The arguments handed to [tfds.core.DatasetInfo]. *)
Record DatasetInfo : Type := {
  builder : Opus;
  info_description : string;
  features : Translation;
  supervised_keys : string * string;
  info_homepage : string;
  citation : string
}.

(** [Opus._info] *)
Definition Opus_info (self : Opus) : DatasetInfo :=
  {| builder := self;
     info_description := _DESCRIPTION;
     features := {| languages := language_pair (builder_config self) |};
     supervised_keys := language_pair (builder_config self);
     info_homepage := "http://opus.nlpl.eu/";
     citation := _CITATION |}.

(** ** Further helpers used in the statements *)

(** [c in s] for a character [c]. *)
Fixpoint contains_char (c : ascii) (s : string) : bool :=
  match s with
  | EmptyString => false
  | String c' rest => Ascii.eqb c' c || contains_char c rest
  end.

(** ["\n".join(pieces)] *)
Fixpoint join_newline (pieces : list string) : string :=
  match pieces with
  | [] => EmptyString
  | piece :: rest =>
      match rest with
      | [] => piece
      | _ :: _ => piece +:+ nl +:+ join_newline rest
      end
  end.

(** Number of occurrences of the character [c] in [s]. *)
Fixpoint count_char (c : ascii) (s : string) : nat :=
  match s with
  | EmptyString => 0
  | String c' rest => (if Ascii.eqb c' c then 1 else 0) + count_char c rest
  end.

(** Both files of a subset exist in the file store. *)
Definition present (w : World) (item : ResolvedSubset) : Prop :=
  is_Some (files w !! source_file item) ∧ is_Some (files w !! target_file item).

(** The language pairs found in the catalogue. *)
Definition CATALOGUE_PAIRS : list (string * string) :=
  [("de", "en"); ("de", "es"); ("en", "es"); ("de", "en_GB"); ("en_GB", "es")].

(** What the paths and locators of a catalogue entry rely on: the url ends
    with the separator, the file name neither is empty nor starts with it, the
    name has no separator, and every pair is a catalogue pair. *)
Definition entry_shape (key : string) (ds : SubDataset) : Prop :=
  endswith_sep (url ds) = true
  ∧ startswith_sep (filename ds) = false
  ∧ truthy (filename ds) = true
  ∧ contains_char "/" (name ds) = false
  ∧ Forall (λ p, p ∈ CATALOGUE_PAIRS) (language_pairs ds).

Global Instance entry_shape_dec key ds : Decision (entry_shape key ds).
Proof. unfold entry_shape. apply _. Defined.

(** A download manager that fails on one locator. *)
Definition failing_manager (bad : string) : DownloadManager :=
  {| extract_dir := λ locator,
       if String.eqb locator bad then Raise (DownloadError locator)
       else Ok "/data/extracted";
     downloaded := [] |}.

(** * Properties *)

(** ** Derived language pairs *)

Lemma derive_language_pairs_nil : derive_language_pairs [] = [].
Proof. reflexivity. Qed.

Lemma derive_language_pairs_cons a languages :
  derive_language_pairs (a :: languages)
  = ((λ target, (a, target)) <$> languages) ++ derive_language_pairs languages.
Proof.
  unfold derive_language_pairs. by rewrite imap_cons.
Qed.

Lemma elem_of_derive_language_pairs languages a b :
  (a, b) ∈ derive_language_pairs languages
  ↔ ∃ i j, i < j ∧ languages !! i = Some a ∧ languages !! j = Some b.
Proof.
  induction languages as [|x l IH].
  - rewrite derive_language_pairs_nil. split.
    + by intros ?%elem_of_nil.
    + by intros (i & j & _ & ? & _).
  - rewrite derive_language_pairs_cons, elem_of_app, list_elem_of_fmap, IH.
    split.
    + intros [(y & [= -> ->] & Hy) | (i & j & Hij & Hi & Hj)].
      * apply list_elem_of_lookup in Hy as [j Hj].
        exists 0, (S j). split; [lia | done].
      * exists (S i), (S j). split; [lia | done].
    + intros (i & j & Hij & Hi & Hj). destruct i as [|i].
      * left. destruct j as [|j]; [lia |]. simpl in *.
        injection Hi as ->. exists b. split; [done |].
        by eapply list_elem_of_lookup_2.
      * right. destruct j as [|j]; [lia |].
        exists i, j. split; [lia | done].
Qed.

Lemma choose2_S n : choose2 (S n) = n + choose2 n.
Proof.
  unfold choose2.
  replace (S n * (S n - 1)) with (n * 2 + n * (n - 1)).
  - by rewrite Nat.div_add_l.
  - destruct n; simpl; lia.
Qed.

Lemma length_derive_language_pairs languages :
  length (derive_language_pairs languages) = choose2 (length languages).
Proof.
  induction languages as [|x l IH]; [done |].
  rewrite derive_language_pairs_cons, length_app, length_fmap, IH.
  simpl length. by rewrite choose2_S.
Qed.

Lemma derive_language_pairs_members languages a b :
  (a, b) ∈ derive_language_pairs languages → a ∈ languages ∧ b ∈ languages.
Proof.
  rewrite elem_of_derive_language_pairs. intros (i & j & _ & Hi & Hj).
  split; by eapply list_elem_of_lookup_2.
Qed.

Lemma derive_language_pairs_distinct languages a b :
  NoDup languages → (a, b) ∈ derive_language_pairs languages → a ≠ b.
Proof.
  intros Hnd. rewrite elem_of_derive_language_pairs.
  intros (i & j & Hij & Hi & Hj) ->.
  pose proof (NoDup_lookup _ _ _ _ Hnd Hi Hj). lia.
Qed.

Lemma derive_language_pairs_asym languages a b :
  NoDup languages →
  (a, b) ∈ derive_language_pairs languages →
  (b, a) ∉ derive_language_pairs languages.
Proof.
  intros Hnd. rewrite !elem_of_derive_language_pairs.
  intros (i & j & Hij & Hi & Hj) (i' & j' & Hij' & Hi' & Hj').
  pose proof (NoDup_lookup _ _ _ _ Hnd Hi Hj').
  pose proof (NoDup_lookup _ _ _ _ Hnd Hj Hi'). lia.
Qed.

Lemma NoDup_derive_language_pairs languages :
  NoDup languages → NoDup (derive_language_pairs languages).
Proof.
  induction 1 as [|x l Hx Hnd IH]; [constructor |].
  rewrite derive_language_pairs_cons. apply NoDup_app. split; [|split].
  - apply NoDup_fmap_2; [|done]. by intros ?? [= ->].
  - intros [a b] (y & [= -> ->] & Hy)%list_elem_of_fmap Hin.
    by apply derive_language_pairs_members in Hin as [? _].
  - done.
Qed.

(** ** The catalogue *)

Lemma DATASET_MAP_well_formed : map_Forall well_formed_entry DATASET_MAP.
Proof. apply (bool_decide_unpack _). vm_compute. exact I. Qed.

Lemma DATASET_MAP_name key ds : DATASET_MAP !! key = Some ds → name ds = key.
Proof. intros H. by destruct (DATASET_MAP_well_formed key ds H). Qed.

Lemma DATASET_MAP_pairs key ds a b :
  DATASET_MAP !! key = Some ds →
  (a, b) ∈ language_pairs ds →
  a ≠ b ∧ (b, a) ∉ language_pairs ds.
Proof.
  intros H Hin. destruct (DATASET_MAP_well_formed key ds H) as [_ Hall].
  rewrite Forall_forall in Hall. exact (Hall (a, b) Hin).
Qed.

(** ** The [subsets] property *)

Lemma filter_loop_spec source target datasets filtered_subsets :
  filter_loop source target datasets filtered_subsets
  = filtered_subsets ++ filter (supports source target) datasets.
Proof.
  revert filtered_subsets.
  induction datasets as [|d ds IH]; intros acc; simpl.
  - by rewrite app_nil_r.
  - rewrite filter_cons.
    case_bool_decide as Hin;
      destruct (decide (supports source target d)) as [Hs|Hs];
      try (by unfold supports in Hs).
    rewrite IH. by rewrite <- app_assoc.
Qed.

Lemma lookup_datasets_Ok names datasets :
  lookup_datasets names = Ok datasets
  ↔ Forall2 (λ key ds, DATASET_MAP !! key = Some ds) names datasets.
Proof.
  revert datasets. induction names as [|n ns IH]; intros datasets; simpl.
  - split.
    + intros [= <-]. constructor.
    + by intros ->%Forall2_nil_inv_l.
  - destruct (DATASET_MAP !! n) as [d|] eqn:Hn.
    + destruct (lookup_datasets ns) as [l|e] eqn:Hl.
      * split.
        -- intros [= <-]. constructor; [done |]. by apply IH.
        -- intros (d' & l' & Hd & Hl' & ->)%Forall2_cons_inv_l.
           apply IH in Hl'. congruence.
      * split; [done |].
        intros (d' & l' & Hd & Hl' & ->)%Forall2_cons_inv_l.
        apply IH in Hl'. congruence.
    + split; [done |].
      intros (d' & l' & Hd & Hl' & ->)%Forall2_cons_inv_l. congruence.
Qed.

Lemma lookup_datasets_total names :
  Forall (λ key, is_Some (DATASET_MAP !! key)) names →
  ∃ datasets, lookup_datasets names = Ok datasets.
Proof.
  induction 1 as [|n ns [d Hd] _ [l Hl]]; simpl.
  - by eexists.
  - rewrite Hd, Hl. by eexists.
Qed.

Lemma first_unknown_Some names :
  (∃ key, key ∈ names ∧ DATASET_MAP !! key = None) →
  ∃ key, first_unknown names = Some key.
Proof.
  intros (key & Hin & Hnone). induction names as [|n ns IH]; simpl.
  - by apply elem_of_nil in Hin.
  - destruct (DATASET_MAP !! n) eqn:Hn; [|by eexists].
    apply elem_of_cons in Hin as [-> | Hin]; [congruence | by apply IH].
Qed.

Lemma first_unknown_spec names key :
  first_unknown names = Some key →
  ∃ known rest, names = known ++ key :: rest
    ∧ DATASET_MAP !! key = None
    ∧ Forall (λ k, is_Some (DATASET_MAP !! k)) known.
Proof.
  induction names as [|n ns IH]; simpl; [done |].
  destruct (DATASET_MAP !! n) eqn:Hn.
  - intros (known & rest & -> & Hk & Hall)%IH.
    exists (n :: known), rest. split_and!; [done | done |].
    constructor; [by rewrite Hn | done].
  - intros [= <-]. exists [], ns. by split_and!.
Qed.

Lemma lookup_datasets_unknown names key :
  first_unknown names = Some key →
  lookup_datasets names = Raise (KeyError key).
Proof.
  induction names as [|n ns IH]; simpl; [done |].
  destruct (DATASET_MAP !! n); [|by intros [= <-]].
  intros H. by rewrite (IH H).
Qed.

Lemma Opus_subsets_eq (self : Opus) :
  Opus_subsets self =
  match lookup_datasets (subsets (builder_config self)) with
  | Raise e => Raise e
  | Ok datasets =>
      Ok (filter (supports (language_pair (builder_config self)).1
                           (language_pair (builder_config self)).2) datasets)
  end.
Proof.
  unfold Opus_subsets. destruct (language_pair (builder_config self)) as [s t].
  destruct (lookup_datasets _); [|done]. by rewrite filter_loop_spec.
Qed.

Lemma lookup_datasets_names names datasets :
  lookup_datasets names = Ok datasets → name <$> datasets = names.
Proof.
  rewrite lookup_datasets_Ok. induction 1 as [|n d ns ds Hd _ IH]; [done |].
  by rewrite fmap_cons, IH, (DATASET_MAP_name n d Hd).
Qed.

Lemma filter_supports_names source target names datasets :
  lookup_datasets names = Ok datasets →
  name <$> filter (supports source target) datasets
  = filter (supported_name source target) names.
Proof.
  rewrite lookup_datasets_Ok. induction 1 as [|n d ns ds Hd _ IH]; [done |].
  rewrite !filter_cons.
  destruct (decide (supports source target d)) as [Hs|Hs];
    destruct (decide (supported_name source target n)) as [Hn|Hn];
    unfold supported_name in Hn; rewrite Hd in Hn; simpl in Hn; try done.
  by rewrite fmap_cons, IH, (DATASET_MAP_name n d Hd).
Qed.

(** ** [_split_generators] *)

Lemma record_download_nil dl_manager : record_download [] dl_manager = dl_manager.
Proof. destruct dl_manager. unfold record_download. simpl. by rewrite app_nil_r. Qed.

Lemma record_download_app l1 l2 dl_manager :
  record_download l2 (record_download l1 dl_manager)
  = record_download (l1 ++ l2) dl_manager.
Proof. unfold record_download. simpl. by rewrite app_assoc. Qed.

Lemma split_loop_Ok source target file_ext items dirs acc dl_manager :
  Forall2 (λ item dir, extract_dir dl_manager (locator_of file_ext item) = Ok dir)
          items dirs →
  split_loop source target file_ext items acc dl_manager
  = (Ok (acc ++ zip_with (resolved_of source target file_ext) dirs items),
     record_download (locator_of file_ext <$> items) dl_manager).
Proof.
  intros H. revert dirs acc dl_manager H.
  induction items as [|item items IH]; intros dirs acc dl H.
  - apply Forall2_nil_inv_l in H as ->. simpl.
    by rewrite app_nil_r, record_download_nil.
  - apply Forall2_cons_inv_l in H as (dir & dirs' & Hdir & Hrest & ->).
    simpl. unfold download_and_extract. rewrite Hdir.
    change {| extract_dir := extract_dir dl;
              downloaded := downloaded dl ++ [locator_of file_ext item] |}
      with (record_download [locator_of file_ext item] dl).
    rewrite (IH dirs') by done.
    by rewrite record_download_app, <- app_assoc.
Qed.

Lemma split_loop_inv source target file_ext items acc dl_manager rs dl_manager' :
  split_loop source target file_ext items acc dl_manager = (Ok rs, dl_manager') →
  ∃ dirs,
    Forall2 (λ item dir, extract_dir dl_manager (locator_of file_ext item) = Ok dir)
            items dirs
    ∧ rs = acc ++ zip_with (resolved_of source target file_ext) dirs items
    ∧ dl_manager' = record_download (locator_of file_ext <$> items) dl_manager.
Proof.
  revert acc dl_manager.
  induction items as [|item items IH]; intros acc dl; simpl.
  - intros [= <- <-]. exists []. split_and!; [constructor | |].
    + by rewrite app_nil_r.
    + by rewrite record_download_nil.
  - unfold download_and_extract.
    destruct (extract_dir dl (locator_of file_ext item)) as [dir|e] eqn:Hdir;
      [|done].
    change {| extract_dir := extract_dir dl;
              downloaded := downloaded dl ++ [locator_of file_ext item] |}
      with (record_download [locator_of file_ext item] dl).
    intros (dirs & Hdirs & -> & ->)%IH.
    exists (dir :: dirs). split_and!.
    + by constructor.
    + by rewrite <- app_assoc.
    + by rewrite record_download_app.
Qed.

Lemma zip_with_resolved_names source target file_ext
    (items : list SubDataset) (dirs : list string) :
  length dirs = length items →
  subset_name <$> zip_with (resolved_of source target file_ext) dirs items
  = name <$> items.
Proof.
  revert dirs. induction items as [|item items IH]; intros [|dir dirs] Hlen;
    try done.
  csimpl. f_equal. apply IH. simpl in Hlen. lia.
Qed.

Lemma Opus_split_generators_eq (self : Opus) dl_manager :
  Opus_split_generators self dl_manager =
  let source := (language_pair (builder_config self)).1 in
  let target := (language_pair (builder_config self)).2 in
  match Opus_subsets self with
  | Raise e => (Raise e, dl_manager)
  | Ok items =>
      match split_loop source target (source +:+ "-" +:+ target) items []
                       dl_manager with
      | (Raise e, dl_manager) => (Raise e, dl_manager)
      | (Ok subsets, dl_manager) =>
          (Ok [ {| split_name := TRAIN; gen_kwargs := subsets |} ], dl_manager)
      end
  end.
Proof.
  unfold Opus_split_generators.
  by destruct (language_pair (builder_config self)) as [s t].
Qed.

(** ** Reading sentences *)

Lemma GFile_exit_enter path w : GFile_exit (GFile_enter path w) = w.
Proof. by destruct w. Qed.

Lemma read_sentences_eq path w :
  read_sentences path w =
  (match files w !! path with
   | Some text => Ok (split_newline text)
   | None => Raise (NotFoundError path)
   end, w).
Proof.
  unfold read_sentences. rewrite GFile_exit_enter. f_equal.
  unfold GFile_read. simpl. by destruct (files w !! path).
Qed.

Lemma split_newline_nonempty text : split_newline text ≠ [].
Proof.
  induction text as [|c rest IH]; simpl; [done |].
  destruct (Ascii.eqb c newline); [done |].
  by destruct (split_newline rest).
Qed.

Lemma split_newline_snoc text :
  split_newline (text +:+ String newline EmptyString)
  = split_newline text ++ [EmptyString].
Proof.
  induction text as [|c rest IH]; simpl.
  - reflexivity.
  - destruct (Ascii.eqb c newline).
    + by rewrite IH.
    + rewrite IH. pose proof (split_newline_nonempty rest).
      by destruct (split_newline rest).
Qed.

Lemma split_newline_trailing text :
  last (split_newline (text +:+ String newline EmptyString)) = Some EmptyString.
Proof. rewrite split_newline_snoc. apply last_snoc. Qed.

(** ** The result dictionary and its truth test *)

Lemma truthy_true s : truthy s = true ↔ s ≠ EmptyString.
Proof. by destruct s. Qed.

Lemma all_values_spec (d : gmap string string) :
  all_values d = true ↔ map_Forall (λ _ v, truthy v = true) d.
Proof.
  unfold all_values. rewrite map_Forall_to_list.
  rewrite <- Is_true_true, forallb_True, Forall_fmap.
  apply Forall_proper; [|done]. intros [k v]. simpl.
  by rewrite Is_true_true.
Qed.

Lemma all_values_result_dict source target ss ts :
  source ≠ target →
  all_values (result_dict source target ss ts) = true
  ↔ ss ≠ EmptyString ∧ ts ≠ EmptyString.
Proof.
  intros Hne. rewrite all_values_spec. unfold result_dict.
  rewrite map_Forall_insert by (by rewrite lookup_insert_ne, lookup_empty).
  rewrite map_Forall_insert by apply lookup_empty.
  rewrite !truthy_true. split.
  - by intros (? & ? & _).
  - intros [? ?]. split_and!; [done | done |]. apply map_Forall_empty.
Qed.

Lemma all_values_result_dict_target source target ss ts :
  all_values (result_dict source target ss ts) = true → ts ≠ EmptyString.
Proof.
  rewrite all_values_spec. unfold result_dict. intros H.
  apply truthy_true. apply (H target). apply lookup_insert_eq.
Qed.

(** ** Keys *)

Lemma example_key_inj item_name i j :
  example_key item_name i = example_key item_name j → i = j.
Proof.
  unfold example_key, fmt_d. intros H.
  apply (inj (String.app item_name)) in H.
  apply (inj (String.app "/")) in H.
  by apply (inj pretty) in H.
Qed.

(** ** The inner loop *)

Lemma elem_of_pair_loop item_name source target src tgt key result :
  (key, result) ∈ pair_loop item_name source target src tgt
  ↔ ∃ idx ss ts,
      src !! idx = Some ss ∧ tgt !! idx = Some ts
      ∧ all_values (result_dict source target ss ts) = true
      ∧ key = example_key item_name idx
      ∧ result = result_dict source target ss ts.
Proof.
  unfold pair_loop, enumerate. rewrite list_elem_of_omap. split.
  - intros ([idx [ss ts]] & Hin & Hf).
    apply elem_of_lookup_imap in Hin as (i & [ss' ts'] & [= -> -> ->] & Hz).
    apply lookup_zip_with_Some in Hz as (x & y & [= -> ->] & Hx & Hy).
    destruct (all_values _) eqn:Hall; [|done]. injection Hf as <- <-.
    by exists i, x, y.
  - intros (idx & ss & ts & Hs & Ht & Hall & -> & ->).
    exists (idx, (ss, ts)). split; [|by rewrite Hall].
    apply elem_of_lookup_imap. exists idx, (ss, ts). split; [done |].
    apply lookup_zip_with_Some. by exists ss, ts.
Qed.





(** ** The generator *)

Lemma Opus_generate_examples_cons (self : Opus) item rest w :
  Opus_generate_examples self (item :: rest) w =
  match files w !! source_file item, files w !! target_file item with
  | None, _ => (([], Some (NotFoundError (source_file item))), w)
  | Some _, None => (([], Some (NotFoundError (target_file item))), w)
  | Some stext, Some ttext =>
      let yielded :=
        pair_loop (subset_name item)
                  (language_pair (builder_config self)).1
                  (language_pair (builder_config self)).2
                  (split_newline stext) (split_newline ttext) in
      let '((more, exn), w) := Opus_generate_examples self rest w in
      ((yielded ++ more, exn), w)
  end.
Proof.
  cbn [Opus_generate_examples]. rewrite read_sentences_eq.
  destruct (files w !! source_file item) as [stext|]; [|done].
  rewrite read_sentences_eq.
  destruct (files w !! target_file item) as [ttext|]; [|done].
  by destruct (language_pair (builder_config self)) as [s t].
Qed.

Lemma Opus_generate_examples_world (self : Opus) subsets w :
  (Opus_generate_examples self subsets w).2 = w.
Proof.
  induction subsets as [|item rest IH]; [done |].
  rewrite Opus_generate_examples_cons.
  destruct (files w !! source_file item); [|done].
  destruct (files w !! target_file item); [|done].
  simpl. by destruct (Opus_generate_examples self rest w) as [[more exn] w'].
Qed.

Lemma Opus_generate_examples_files (self : Opus) subsets w w' :
  files w = files w' →
  (Opus_generate_examples self subsets w).1
  = (Opus_generate_examples self subsets w').1.
Proof.
  intros Hfiles. induction subsets as [|item rest IH]; [done |].
  rewrite !Opus_generate_examples_cons, <- Hfiles.
  destruct (files w !! source_file item); [|done].
  destruct (files w !! target_file item); [|done].
  simpl.
  destruct (Opus_generate_examples self rest w) as [[more exn] w1].
  destruct (Opus_generate_examples self rest w') as [[more' exn'] w1'].
  simpl in IH. by injection IH as -> ->.
Qed.

Lemma Opus_generate_examples_single (self : Opus) item w stext ttext :
  files w !! source_file item = Some stext →
  files w !! target_file item = Some ttext →
  Opus_generate_examples self [item] w =
  ((pair_loop (subset_name item)
              (language_pair (builder_config self)).1
              (language_pair (builder_config self)).2
              (split_newline stext) (split_newline ttext), None), w).
Proof.
  intros Hs Ht. rewrite Opus_generate_examples_cons, Hs, Ht. simpl.
  by rewrite app_nil_r.
Qed.

Lemma Opus_generate_examples_step (self : Opus) item rest w stext ttext :
  files w !! source_file item = Some stext →
  files w !! target_file item = Some ttext →
  (Opus_generate_examples self (item :: rest) w).1
  = ((Opus_generate_examples self [item] w).1.1
       ++ (Opus_generate_examples self rest w).1.1,
     (Opus_generate_examples self rest w).1.2).
Proof.
  intros Hs Ht.
  rewrite (Opus_generate_examples_single self item w stext ttext Hs Ht).
  rewrite Opus_generate_examples_cons, Hs, Ht. simpl.
  by destruct (Opus_generate_examples self rest w) as [[more exn] w'].
Qed.

(** ** Resolved subsets *)

Lemma resolved_for_inv (self : Opus) item :
  resolved_for self item →
  let source := (language_pair (builder_config self)).1 in
  let target := (language_pair (builder_config self)).2 in
  ∃ key ds dl_dir,
    key ∈ subsets (builder_config self)
    ∧ DATASET_MAP !! key = Some ds
    ∧ supports source target ds
    ∧ item = resolved_of source target (source +:+ "-" +:+ target) dl_dir ds.
Proof.
  intros (dl & splits & dl' & split & Hrun & Hsplit & Hitem). simpl.
  rewrite Opus_split_generators_eq, Opus_subsets_eq in Hrun. simpl in Hrun.
  destruct (lookup_datasets _) as [datasets|] eqn:Hlook; [|done].
  destruct (split_loop _ _ _ _ _ _) as [[rs|] dl1] eqn:Hloop; [|done].
  injection Hrun as <- <-.
  apply list_elem_of_singleton in Hsplit as ->. simpl in Hitem.
  apply split_loop_inv in Hloop as (dirs & Hdirs & -> & _).
  simpl in Hitem.
  apply elem_of_lookup_zip_with in Hitem as (i & dir & ds & -> & Hdir & Hds).
  apply list_elem_of_lookup_2, list_elem_of_filter in Hds as [Hsup Hin].
  apply lookup_datasets_Ok in Hlook.
  apply list_elem_of_lookup in Hin as [j Hj].
  destruct (Forall2_lookup_r _ _ _ _ _ Hlook Hj) as (key & Hkey & Hmap).
  exists key, ds, dir. split_and!; try done.
  by eapply list_elem_of_lookup_2.
Qed.

Lemma resolved_for_distinct (self : Opus) item :
  resolved_for self item →
  (language_pair (builder_config self)).1
  ≠ (language_pair (builder_config self)).2.
Proof.
  intros (key & ds & dir & _ & Hmap & Hsup & _)%resolved_for_inv.
  by destruct (DATASET_MAP_pairs _ _ _ _ Hmap Hsup).
Qed.

(** * Claims *)

(** C1 (as stated, refuted): the pair ("de","en") is among the derived pairs of
    EMEA, yet requesting ("en","de") leaves EMEA out while requesting
    ("de","en") keeps it, so a pair and its reversal do not select the same
    corpora. *)
Lemma C1_counterexample :
  ∃ ds, DATASET_MAP !! "EMEA" = Some ds
    ∧ ("de", "en") ∈ language_pairs ds
    ∧ Opus_subsets (Opus_for ("en", "de") ["EMEA"]) = Ok []
    ∧ Opus_subsets (Opus_for ("de", "en") ["EMEA"]) = Ok [ds].
Proof.
  eexists. split; [vm_compute; reflexivity |].
  split; [|split; vm_compute; reflexivity].
  apply (bool_decide_unpack _). vm_compute. exact I.
Qed.

(** C1 (amended): for every requested (source, target) pair and every corpus
    named in the configured subset list, the corpus is included in the
    resolved build if and only if the requested pair appears among the
    corpus's derived pairs in exactly the requested order; a corpus selected
    for (source, target) is never selected for (target, source). *)
Theorem C1_inclusion_follows_requested_order
    (source target : string) (names : list string) (key : string)
    (ds : SubDataset) :
  Forall known names →
  key ∈ names →
  DATASET_MAP !! key = Some ds →
  ∃ items,
    Opus_subsets (Opus_for (source, target) names) = Ok items
    ∧ (ds ∈ items ↔ (source, target) ∈ language_pairs ds)
    ∧ (ds ∈ items →
       ∀ items', Opus_subsets (Opus_for (target, source) names) = Ok items' →
                 ds ∉ items').
Proof.
  intros Hknown Hkey Hds.
  destruct (lookup_datasets_total names Hknown) as [datasets Hlook].
  assert (ds ∈ datasets) as Hin.
  { apply lookup_datasets_Ok in Hlook.
    apply list_elem_of_lookup in Hkey as [i Hi].
    destruct (Forall2_lookup_l _ _ _ _ _ Hlook Hi) as (d & Hd & Hmap).
    apply list_elem_of_lookup. exists i. congruence. }
  exists (filter (supports source target) datasets).
  rewrite !Opus_subsets_eq. simpl. rewrite Hlook.
  split; [done |]. split.
  - rewrite list_elem_of_filter. unfold supports.
    split; [by intros [? _] | by intros ?; split].
  - intros [Hsup _]%list_elem_of_filter items' [= <-].
    intros [Hrev _]%list_elem_of_filter.
    by destruct (DATASET_MAP_pairs _ _ _ _ Hds Hsup).
Qed.

(** Instance: German to English over EMEA and OpenOffice, for the EMEA corpus. *)
Lemma C1_witness :
  Forall known ["EMEA"; "OpenOffice"] ∧ "EMEA" ∈ ["EMEA"; "OpenOffice"] ∧
  ∃ ds, DATASET_MAP !! "EMEA" = Some ds ∧
  ∃ items,
    Opus_subsets (Opus_for ("de", "en") ["EMEA"; "OpenOffice"]) = Ok items
    ∧ (ds ∈ items ↔ ("de", "en") ∈ language_pairs ds)
    ∧ (ds ∈ items →
       ∀ items',
         Opus_subsets (Opus_for ("en", "de") ["EMEA"; "OpenOffice"]) = Ok items' →
         ds ∉ items').
Proof.
  assert (Forall known ["EMEA"; "OpenOffice"]) as Hknown.
  { apply (bool_decide_unpack _). vm_compute. exact I. }
  assert ("EMEA" ∈ ["EMEA"; "OpenOffice"]) as Hkey by apply list_elem_of_here.
  split; [exact Hknown |]. split; [exact Hkey |].
  destruct (DATASET_MAP !! "EMEA") as [ds|] eqn:Hds; [|vm_compute in Hds; done].
  exists ds. split; [done |].
  exact (C1_inclusion_follows_requested_order
           "de" "en" ["EMEA"; "OpenOffice"] "EMEA" ds Hknown Hkey Hds).
Defined.

(** C2 (as stated, refuted): the list "de", "en", "es" has distinct codes and
    its derived pairs contain ("de","en") but not ("en","de"). *)
Lemma C2_counterexample :
  let pairs :=
    language_pairs
      (SubDataset_init "EMEA" "" "" "" ["de"; "en"; "es"] "EMEA") in
  NoDup ["de"; "en"; "es"]
  ∧ ¬ (("de", "en") ∈ pairs ↔ ("en", "de") ∈ pairs).
Proof.
  intros pairs. split.
  - apply (bool_decide_unpack _). vm_compute. exact I.
  - intros [Hfwd _].
    assert (("de", "en") ∈ pairs) as Hin
      by (apply (bool_decide_unpack _); vm_compute; exact I).
    apply Hfwd in Hin. revert Hin.
    apply (bool_decide_unpack _). vm_compute. exact I.
Qed.

(** C2 (amended): for every language list L of N distinct codes, the pair
    derivation performed at corpus construction yields exactly C(N,2) pairs,
    without repetition, each made of two distinct elements of L, and the
    resulting collection contains (a,b) if and only if a occurs before b in L;
    hence it never contains both (a,b) and (b,a). *)
Theorem C2_derived_pairs
    (name description homepage url filename : string)
    (languages : list string) :
  NoDup languages →
  let pairs :=
    language_pairs
      (SubDataset_init name description homepage url languages filename) in
  length pairs = choose2 (length languages)
  ∧ NoDup pairs
  ∧ (∀ a b, (a, b) ∈ pairs → a ∈ languages ∧ b ∈ languages ∧ a ≠ b)
  ∧ (∀ a b, (a, b) ∈ pairs
            ↔ ∃ i j, (i < j)%nat
                     ∧ languages !! i = Some a ∧ languages !! j = Some b)
  ∧ (∀ a b, (a, b) ∈ pairs → (b, a) ∉ pairs).
Proof.
  intros Hnd pairs. subst pairs. simpl. split_and!.
  - apply length_derive_language_pairs.
  - by apply NoDup_derive_language_pairs.
  - intros a b Hin.
    destruct (derive_language_pairs_members _ _ _ Hin) as [Ha Hb].
    split_and!; [done | done |].
    by eapply derive_language_pairs_distinct.
  - intros a b. apply elem_of_derive_language_pairs.
  - intros a b. by apply derive_language_pairs_asym.
Qed.

(** Instance: the language list of the OpenOffice corpus. *)
Lemma C2_witness :
  NoDup ["de"; "en_GB"; "es"] ∧
  let pairs :=
    language_pairs
      (SubDataset_init "OpenOffice" "" "" "" ["de"; "en_GB"; "es"] "OpenOffice") in
  length pairs = choose2 (length ["de"; "en_GB"; "es"])
  ∧ NoDup pairs
  ∧ (∀ a b, (a, b) ∈ pairs
            → a ∈ ["de"; "en_GB"; "es"] ∧ b ∈ ["de"; "en_GB"; "es"] ∧ a ≠ b)
  ∧ (∀ a b, (a, b) ∈ pairs
            ↔ ∃ i j, (i < j)%nat
                     ∧ ["de"; "en_GB"; "es"] !! i = Some a
                     ∧ ["de"; "en_GB"; "es"] !! j = Some b)
  ∧ (∀ a b, (a, b) ∈ pairs → (b, a) ∉ pairs).
Proof.
  assert (NoDup ["de"; "en_GB"; "es"]) as Hnd.
  { apply (bool_decide_unpack _). vm_compute. exact I. }
  split; [exact Hnd |].
  exact (C2_derived_pairs "OpenOffice" "" "" "" "OpenOffice"
                          ["de"; "en_GB"; "es"] Hnd).
Defined.

(** C3: for every requested pair and every list of subset names all present
    in the catalogue, resolution returns at most [len(names)] entries, every
    returned corpus supports the requested pair, and the entries come in the
    order of the surviving names of the input list; names whose corpus lacks
    the pair are left out without any error. *)
Theorem C3_resolution_is_a_stable_filter (self : Opus) :
  let source := (language_pair (builder_config self)).1 in
  let target := (language_pair (builder_config self)).2 in
  let names := subsets (builder_config self) in
  Forall known names →
  ∃ items,
    Opus_subsets self = Ok items
    ∧ (length items ≤ length names)%nat
    ∧ Forall (supports source target) items
    ∧ name <$> items = filter (supported_name source target) names
    ∧ ∀ dl_manager splits dl_manager',
        Opus_split_generators self dl_manager = (Ok splits, dl_manager') →
        ∃ resolved,
          splits = [ {| split_name := TRAIN; gen_kwargs := resolved |} ]
          ∧ (length resolved ≤ length names)%nat
          ∧ subset_name <$> resolved
            = filter (supported_name source target) names.
Proof.
  intros source target names Hknown.
  destruct (lookup_datasets_total names Hknown) as [datasets Hlook].
  pose proof (filter_supports_names source target names datasets Hlook) as Hnames.
  assert (length (filter (supports source target) datasets) ≤ length names)%nat
    as Hlen.
  { etrans; [apply length_filter |].
    apply lookup_datasets_Ok, Forall2_length in Hlook. lia. }
  exists (filter (supports source target) datasets).
  rewrite Opus_subsets_eq. fold names. rewrite Hlook.
  split_and!; [done | done | | done |].
  - apply Forall_forall. by intros d [? _]%list_elem_of_filter.
  - intros dl splits dl' Hrun.
    rewrite Opus_split_generators_eq, Opus_subsets_eq in Hrun.
    fold names source target in Hrun. rewrite Hlook in Hrun. simpl in Hrun.
    destruct (split_loop _ _ _ _ _ _) as [[rs|] dl1] eqn:Hloop; [|done].
    injection Hrun as <- <-.
    apply split_loop_inv in Hloop as (dirs & Hdirs & -> & _).
    apply Forall2_length in Hdirs. simpl.
    exists (zip_with (resolved_of source target (source +:+ "-" +:+ target))
                     dirs (filter (supports source target) datasets)).
    split_and!; [done | |].
    + rewrite length_zip_with. lia.
    + by rewrite zip_with_resolved_names.
Qed.

(** Instance: German to English over EMEA, OpenOffice and PHP. *)
Lemma C3_witness :
  Forall known ["EMEA"; "OpenOffice"; "PHP"] ∧
  ∃ items,
    Opus_subsets (Opus_for ("de", "en") ["EMEA"; "OpenOffice"; "PHP"]) = Ok items
    ∧ (length items ≤ 3)%nat
    ∧ Forall (supports "de" "en") items
    ∧ name <$> items
      = filter (supported_name "de" "en") ["EMEA"; "OpenOffice"; "PHP"]
    ∧ ∀ dl_manager splits dl_manager',
        Opus_split_generators
          (Opus_for ("de", "en") ["EMEA"; "OpenOffice"; "PHP"]) dl_manager
        = (Ok splits, dl_manager') →
        ∃ resolved,
          splits = [ {| split_name := TRAIN; gen_kwargs := resolved |} ]
          ∧ (length resolved ≤ 3)%nat
          ∧ subset_name <$> resolved
            = filter (supported_name "de" "en") ["EMEA"; "OpenOffice"; "PHP"].
Proof.
  assert (Forall known ["EMEA"; "OpenOffice"; "PHP"]) as Hknown.
  { apply (bool_decide_unpack _). vm_compute. exact I. }
  split; [exact Hknown |].
  exact (C3_resolution_is_a_stable_filter
           (Opus_for ("de", "en") ["EMEA"; "OpenOffice"; "PHP"]) Hknown).
Defined.

(** C4: when the list of subset names contains a name that the catalogue
    does not have, resolution raises [KeyError] (a [LookupError]) for the
    first such name: the name is not skipped, [_split_generators] raises the
    same error, and no download has been requested. *)
Theorem C4_unknown_subset_name_raises (self : Opus) :
  let names := subsets (builder_config self) in
  (∃ key, key ∈ names ∧ DATASET_MAP !! key = None) →
  ∃ key,
    first_unknown names = Some key
    ∧ key ∈ names
    ∧ DATASET_MAP !! key = None
    ∧ Opus_subsets self = Raise (KeyError key)
    ∧ is_lookup_error (KeyError key) = true
    ∧ ∀ dl_manager,
        Opus_split_generators self dl_manager
        = (Raise (KeyError key), dl_manager).
Proof.
  intros names Habsent.
  destruct (first_unknown_Some names Habsent) as [key Hfirst].
  destruct (first_unknown_spec names key Hfirst)
    as (before & rest & Hnames & Hnone & _).
  pose proof (lookup_datasets_unknown names key Hfirst) as Hraise.
  assert (Opus_subsets self = Raise (KeyError key)) as Hsub.
  { rewrite Opus_subsets_eq. fold names. by rewrite Hraise. }
  exists key. split_and!; try done.
  - rewrite Hnames. apply elem_of_app. right. apply list_elem_of_here.
  - intros dl. by rewrite Opus_split_generators_eq, Hsub.
Qed.

(** Instance: a subset list naming Europarl, which the catalogue lacks. *)
Lemma C4_witness :
  (∃ key, key ∈ ["EMEA"; "Europarl"; "PHP"] ∧ DATASET_MAP !! key = None) ∧
  ∃ key,
    first_unknown ["EMEA"; "Europarl"; "PHP"] = Some key
    ∧ key ∈ ["EMEA"; "Europarl"; "PHP"]
    ∧ DATASET_MAP !! key = None
    ∧ Opus_subsets (Opus_for ("de", "en") ["EMEA"; "Europarl"; "PHP"])
      = Raise (KeyError key)
    ∧ is_lookup_error (KeyError key) = true
    ∧ ∀ dl_manager,
        Opus_split_generators
          (Opus_for ("de", "en") ["EMEA"; "Europarl"; "PHP"]) dl_manager
        = (Raise (KeyError key), dl_manager).
Proof.
  assert (∃ key, key ∈ ["EMEA"; "Europarl"; "PHP"] ∧ DATASET_MAP !! key = None)
    as Habsent.
  { exists "Europarl". split; [|vm_compute; reflexivity].
    apply list_elem_of_further, list_elem_of_here. }
  split; [exact Habsent |].
  exact (C4_unknown_subset_name_raises
           (Opus_for ("de", "en") ["EMEA"; "Europarl"; "PHP"]) Habsent).
Defined.

(** C8: for the corpora that pass the pair filter and the requested pair
    (source, target), the file suffix is "source-target" in the requested
    order, the archive requested from the download manager for a corpus is
    its url joined with "suffix.txt.zip", and the resolved entry has the
    corpus name, the source path "filename.suffix.source" and the target path
    "filename.suffix.target", both joined to the directory the download
    manager returned for that corpus. *)
Theorem C8_locators_and_file_paths (self : Opus)
    (dl_manager : DownloadManager) (items : list SubDataset)
    (dirs : list string) :
  let source := (language_pair (builder_config self)).1 in
  let target := (language_pair (builder_config self)).2 in
  let file_suffix := source +:+ "-" +:+ target in
  let locator item := os_path_join (url item) (file_suffix +:+ ".txt.zip") in
  Opus_subsets self = Ok items →
  Forall2 (λ item dl_dir, extract_dir dl_manager (locator item) = Ok dl_dir)
          items dirs →
  ∃ dl_manager',
    Opus_split_generators self dl_manager
    = (Ok [ {| split_name := TRAIN;
               gen_kwargs :=
                 zip_with
                   (λ dl_dir item,
                      {| subset_name := name item;
                         source_file :=
                           os_path_join dl_dir
                             (filename item +:+ "." +:+ file_suffix
                                +:+ "." +:+ source);
                         target_file :=
                           os_path_join dl_dir
                             (filename item +:+ "." +:+ file_suffix
                                +:+ "." +:+ target) |})
                   dirs items |} ],
       dl_manager')
    ∧ extract_dir dl_manager' = extract_dir dl_manager
    ∧ downloaded dl_manager' = downloaded dl_manager ++ (locator <$> items).
Proof.
  intros source target file_suffix locator Hsub Hdirs.
  exists (record_download (locator <$> items) dl_manager).
  split; [|done].
  rewrite Opus_split_generators_eq, Hsub. cbv zeta.
  fold source target file_suffix.
  by rewrite (split_loop_Ok source target file_suffix items dirs [] dl_manager Hdirs).
Qed.

(** The sample subset is what the sample builder resolves. *)
Lemma sample_item_resolved : resolved_for sample_builder sample_item.
Proof.
  exists sample_manager. eexists. eexists. eexists.
  split; [vm_compute; reflexivity |].
  split; [apply list_elem_of_here |]. apply list_elem_of_here.
Defined.

(** Instance: the sample builder and a manager unpacking under one directory. *)
Lemma C8_witness :
  Opus_subsets sample_builder = Ok [EMEA]
  ∧ Forall2 (λ item dl_dir,
               extract_dir sample_manager
                 (os_path_join (url item) ("de-en" +:+ ".txt.zip")) = Ok dl_dir)
            [EMEA] ["/data/extracted"]
  ∧ ∃ dl_manager',
      Opus_split_generators sample_builder sample_manager
      = (Ok [ {| split_name := TRAIN;
                 gen_kwargs :=
                   [ {| subset_name := "EMEA";
                        source_file := "/data/extracted/EMEA.de-en.de";
                        target_file := "/data/extracted/EMEA.de-en.en" |} ] |} ],
         dl_manager')
      ∧ extract_dir dl_manager' = extract_dir sample_manager
      ∧ downloaded dl_manager'
        = [ "http://opus.nlpl.eu/download.php?f=EMEA/v3/moses/de-en.txt.zip" ].
Proof.
  assert (Opus_subsets sample_builder = Ok [EMEA]) as Hsub
    by (vm_compute; reflexivity).
  assert (Forall2 (λ item dl_dir,
                     extract_dir sample_manager
                       (os_path_join (url item) ("de-en" +:+ ".txt.zip"))
                     = Ok dl_dir)
                  [EMEA] ["/data/extracted"]) as Hdirs
    by (repeat constructor).
  split; [exact Hsub |]. split; [exact Hdirs |].
  exact (C8_locators_and_file_paths sample_builder sample_manager
           [EMEA] ["/data/extracted"] Hsub Hdirs).
Defined.

Lemma all_values_result_dict_eq source target ss ts :
  source ≠ target →
  all_values (result_dict source target ss ts) = truthy ss && truthy ts.
Proof.
  intros Hne. apply eq_true_iff_eq.
  rewrite all_values_result_dict, andb_true_iff, !truthy_true; done.
Qed.

Lemma result_dict_lookup source target ss ts :
  source ≠ target →
  result_dict source target ss ts !! source = Some ss
  ∧ result_dict source target ss ts !! target = Some ts.
Proof.
  intros Hne. unfold result_dict. split.
  - by rewrite lookup_insert_ne, lookup_insert_eq.
  - by rewrite lookup_insert_eq.
Qed.



(** The run of the sample texts: the middle lines hold only blanks and are
    kept. *)
Example sample_run_keeps_blank_lines :
  (Opus_generate_examples sample_builder [sample_item]
     (sample_world sample_source_text sample_target_text)).1
  = ([ ("EMEA/0", result_dict "de" "en" "Guten Tag" "Good day");
       ("EMEA/1", result_dict "de" "en" "  " " ");
       ("EMEA/2", result_dict "de" "en" "Danke" "Thanks") ], None).
Proof. vm_compute. reflexivity. Qed.

(** C6: with the source content a, b, empty line, c and the target content
    x, y, z, w (one per line), a resolved subset yields exactly three records:
    index 0 with (a, x), index 1 with (b, y) and index 3 with (c, w); nothing is
    yielded at index 2, whose source line is empty. *)
Theorem C6_worked_example (self : Opus) (item : ResolvedSubset) (w : World) :
  let source := (language_pair (builder_config self)).1 in
  let target := (language_pair (builder_config self)).2 in
  resolved_for self item →
  files w !! source_file item
    = Some ("a" +:+ nl +:+ "b" +:+ nl +:+ nl +:+ "c") →
  files w !! target_file item
    = Some ("x" +:+ nl +:+ "y" +:+ nl +:+ "z" +:+ nl +:+ "w") →
  Opus_generate_examples self [item] w
  = (([ (subset_name item +:+ "/0", <[target := "x"]> {[source := "a"]});
        (subset_name item +:+ "/1", <[target := "y"]> {[source := "b"]});
        (subset_name item +:+ "/3", <[target := "w"]> {[source := "c"]}) ],
      None), w).
Proof.
  intros source target Hres Hs Ht.
  pose proof (resolved_for_distinct self item Hres) as Hne.
  fold source target in Hne.
  rewrite (Opus_generate_examples_single self item w _ _ Hs Ht).
  fold source target. unfold pair_loop, enumerate.
  change (split_newline ("a" +:+ nl +:+ "b" +:+ nl +:+ nl +:+ "c"))
    with ["a"; "b"; ""; "c"].
  change (split_newline ("x" +:+ nl +:+ "y" +:+ nl +:+ "z" +:+ nl +:+ "w"))
    with ["x"; "y"; "z"; "w"].
  cbn -[all_values result_dict example_key].
  rewrite !all_values_result_dict_eq by done.
  cbn -[result_dict example_key].
  unfold result_dict. by rewrite !insert_empty.
Qed.

(** Instance: the sample subset over the two given contents. *)
Lemma C6_witness :
  let w := sample_world worked_source_text worked_target_text in
  resolved_for sample_builder sample_item
  ∧ files w !! source_file sample_item = Some worked_source_text
  ∧ files w !! target_file sample_item = Some worked_target_text
  ∧ Opus_generate_examples sample_builder [sample_item] w
    = (([ ("EMEA/0", <["en" := "x"]> {["de" := "a"]});
          ("EMEA/1", <["en" := "y"]> {["de" := "b"]});
          ("EMEA/3", <["en" := "w"]> {["de" := "c"]}) ],
        None), w).
Proof.
  intros w.
  assert (files w !! source_file sample_item = Some worked_source_text) as Hs
    by (vm_compute; reflexivity).
  assert (files w !! target_file sample_item = Some worked_target_text) as Ht
    by (vm_compute; reflexivity).
  split; [exact sample_item_resolved |].
  split; [exact Hs |]. split; [exact Ht |].
  exact (C6_worked_example sample_builder sample_item w
           sample_item_resolved Hs Ht).
Defined.





(** The run over the four-line source and the two-line target: the first two
    lines are paired, the last two source lines are left out. *)
Example sample_run_stops_at_shorter_text :
  (Opus_generate_examples sample_builder [sample_item]
     (sample_world longer_source_text shorter_target_text)).1
  = ([ ("EMEA/0", result_dict "de" "en" "eins" "one");
       ("EMEA/1", result_dict "de" "en" "zwei" "two") ], None).
Proof. vm_compute. reflexivity. Qed.

(** C9: generation is repeatable: a second run over the same subsets, started
    from the file store the first run left behind, yields the same records in
    the same order and ends the same way; each run leaves the file store as it
    found it, with no file handle left open; and the outcome depends on the
    file contents only. *)
Theorem C9_generation_is_repeatable (self : Opus)
    (subsets : list ResolvedSubset) (w : World) :
  let first := Opus_generate_examples self subsets w in
  let second := Opus_generate_examples self subsets first.2 in
  second.1 = first.1
  ∧ first.2 = w
  ∧ second.2 = w
  ∧ ∀ w', files w' = files w →
          (Opus_generate_examples self subsets w').1 = first.1.
Proof.
  intros first second. subst second first.
  rewrite !Opus_generate_examples_world. split_and!; try done.
  intros w' Hfiles. by apply Opus_generate_examples_files.
Qed.

(** Instance: two runs of the sample subset. *)
Lemma C9_witness :
  let w := sample_world worked_source_text worked_target_text in
  let first := Opus_generate_examples sample_builder [sample_item] w in
  let second := Opus_generate_examples sample_builder [sample_item] first.2 in
  second.1 = first.1
  ∧ first.2 = w
  ∧ second.2 = w
  ∧ ∀ w', files w' = files w →
          (Opus_generate_examples sample_builder [sample_item] w').1 = first.1.
Proof.
  exact (C9_generation_is_repeatable sample_builder [sample_item]
           (sample_world worked_source_text worked_target_text)).
Defined.

Lemma last_line_empty_no_record item_name source target src tgt result :
  source ≠ target →
  last src = Some EmptyString →
  (example_key item_name (length src - 1), result)
  ∉ pair_loop item_name source target src tgt.
Proof.
  intros Hne Hlast Hin. rewrite last_lookup in Hlast.
  replace (pred (length src)) with (length src - 1) in Hlast by lia.
  apply elem_of_pair_loop in Hin as (i & ss & ts & Hi & _ & Hall & Hkey & _).
  apply example_key_inj in Hkey as <-.
  apply all_values_result_dict in Hall as [Hss _]; [|done]. congruence.
Qed.

Lemma last_target_line_empty_no_record item_name source target src tgt result :
  last tgt = Some EmptyString →
  (example_key item_name (length tgt - 1), result)
  ∉ pair_loop item_name source target src tgt.
Proof.
  intros Hlast Hin. rewrite last_lookup in Hlast.
  replace (pred (length tgt)) with (length tgt - 1) in Hlast by lia.
  apply elem_of_pair_loop in Hin as (i & ss & ts & _ & Hj & Hall & Hkey & _).
  apply example_key_inj in Hkey as <-.
  apply all_values_result_dict_target in Hall. congruence.
Qed.

(** C10: the text is split on the newline character, so a content that ends
    with a newline has a last line that is the empty string; a resolved
    subset yields no record at the last line index of a source file whose
    last line is empty, nor at the last line index of such a target file; and
    when both contents are the empty string the run yields no record and
    raises nothing. *)
Theorem C10_trailing_newline_yields_nothing (self : Opus)
    (item : ResolvedSubset) (w : World) (stext ttext : string) :
  let src := split_newline stext in
  let tgt := split_newline ttext in
  let run := Opus_generate_examples self [item] w in
  files w !! source_file item = Some stext →
  files w !! target_file item = Some ttext →
  (∀ text, last (split_newline (text +:+ nl)) = Some EmptyString)
  ∧ (resolved_for self item →
     (stext = EmptyString ∨ ∃ text, stext = text +:+ nl) →
     ∀ result,
       (subset_name item +:+ "/" +:+ fmt_d (length src - 1), result) ∉ run.1.1)
  ∧ ((ttext = EmptyString ∨ ∃ text, ttext = text +:+ nl) →
     ∀ result,
       (subset_name item +:+ "/" +:+ fmt_d (length tgt - 1), result) ∉ run.1.1)
  ∧ (stext = EmptyString → ttext = EmptyString → run = (([], None), w)).
Proof.
  intros src tgt run Hs Ht. subst run.
  rewrite (Opus_generate_examples_single self item w stext ttext Hs Ht).
  fold src tgt. simpl. split_and!.
  - apply split_newline_trailing.
  - intros Hres Hend result.
    apply last_line_empty_no_record.
    + by apply (resolved_for_distinct self item).
    + subst src. destruct Hend as [-> | [text ->]]; [done |].
      apply split_newline_trailing.
  - intros Hend result.
    apply last_target_line_empty_no_record.
    subst tgt. destruct Hend as [-> | [text ->]]; [done |].
    apply split_newline_trailing.
  - intros -> ->. subst src tgt. unfold pair_loop, enumerate.
    cbn -[all_values result_dict].
    destruct (all_values _) eqn:Hall; [|done].
    by apply all_values_result_dict_target in Hall.
Qed.

(** Instance: the sample subset over two texts ending in a newline. *)
Lemma C10_witness :
  let w := sample_world trailing_source_text trailing_target_text in
  let src := split_newline trailing_source_text in
  let tgt := split_newline trailing_target_text in
  let run := Opus_generate_examples sample_builder [sample_item] w in
  files w !! source_file sample_item = Some trailing_source_text
  ∧ files w !! target_file sample_item = Some trailing_target_text
  ∧ (∀ text, last (split_newline (text +:+ nl)) = Some EmptyString)
  ∧ (resolved_for sample_builder sample_item →
     (trailing_source_text = EmptyString
      ∨ ∃ text, trailing_source_text = text +:+ nl) →
     ∀ result, ("EMEA" +:+ "/" +:+ fmt_d (length src - 1), result) ∉ run.1.1)
  ∧ ((trailing_target_text = EmptyString
      ∨ ∃ text, trailing_target_text = text +:+ nl) →
     ∀ result, ("EMEA" +:+ "/" +:+ fmt_d (length tgt - 1), result) ∉ run.1.1)
  ∧ (trailing_source_text = EmptyString →
     trailing_target_text = EmptyString → run = (([], None), w)).
Proof.
  intros w src tgt run.
  assert (files w !! source_file sample_item = Some trailing_source_text) as Hs
    by (vm_compute; reflexivity).
  assert (files w !! target_file sample_item = Some trailing_target_text) as Ht
    by (vm_compute; reflexivity).
  split; [exact Hs |]. split; [exact Ht |].
  exact (C10_trailing_newline_yields_nothing sample_builder sample_item w
           trailing_source_text trailing_target_text Hs Ht).
Defined.

(** The two runs behind C10 on the sample store: texts ending in a newline
    yield a record for every line but the last, and two empty files yield
    nothing. *)
Example sample_run_trailing_newline :
  (Opus_generate_examples sample_builder [sample_item]
     (sample_world trailing_source_text trailing_target_text)).1
  = ([ ("EMEA/0", result_dict "de" "en" "Hallo" "hello");
       ("EMEA/1", result_dict "de" "en" "Welt" "world") ], None).
Proof. vm_compute. reflexivity. Qed.

Example sample_run_empty_files :
  (Opus_generate_examples sample_builder [sample_item]
     (sample_world EmptyString EmptyString)).1
  = ([], None).
Proof. vm_compute. reflexivity. Qed.

(** Outside resolved subsets: when the two codes of the pair coincide, the
    result dictionary has a single key holding the target line, so the truth
    test looks at the target line only.  No catalogue corpus lists such a
    pair, so this never happens for a resolved subset. *)
Example same_code_tests_target_only :
  (Opus_generate_examples (Opus_for ("en", "en") ["EMEA"]) [sample_item]
     (sample_world ("a" +:+ nl +:+ nl +:+ "c") ("x" +:+ nl +:+ "y" +:+ nl +:+ "z"))).1
  = ([ ("EMEA/0", {["en" := "x"]});
       ("EMEA/1", {["en" := "y"]});
       ("EMEA/2", {["en" := "z"]}) ], None)
  ∧ Opus_subsets (Opus_for ("en", "en") ["EMEA"]) = Ok [].
Proof. split; vm_compute; reflexivity. Qed.

(** * Further properties *)

(** ** The catalogue dictionary *)

Lemma dict_by_name_snoc l ds :
  dict_by_name (l ++ [ds]) = <[name ds := ds]> (dict_by_name l).
Proof. unfold dict_by_name. by rewrite foldl_app. Qed.

(** X1: the dictionary built from a list of corpora maps a key to the last
    corpus of the list that bears this name, and to nothing when no corpus
    bears it. *)
Theorem dict_by_name_lookup (l : list SubDataset) (key : string) :
  dict_by_name l !! key = last (filter (λ ds, name ds = key) l).
Proof.
  induction l as [|ds l IH] using rev_ind; [done |].
  rewrite dict_by_name_snoc, filter_app, filter_cons, filter_nil.
  destruct (decide (name ds = key)) as [<- | Hne].
  - by rewrite lookup_insert_eq, last_snoc.
  - by rewrite lookup_insert_ne, app_nil_r.
Qed.

(** X2: when no two corpora of the list share a name, a corpus is found
    under its own name exactly when it is in the list. *)
Theorem dict_by_name_round_trip (l : list SubDataset) (ds : SubDataset) :
  NoDup (name <$> l) →
  dict_by_name l !! name ds = Some ds ↔ ds ∈ l.
Proof.
  induction l as [|d l IH] using rev_ind; intros Hnd.
  - split; [done | by intros ?%elem_of_nil].
  - rewrite fmap_app in Hnd. apply NoDup_app in Hnd as (Hnd & Hfresh & _).
    rewrite dict_by_name_snoc, elem_of_app, list_elem_of_singleton.
    destruct (decide (name d = name ds)) as [Heq | Hne].
    + rewrite Heq, lookup_insert_eq. split.
      * intros [= ->]. by right.
      * intros [Hin | ->]; [|done]. exfalso.
        apply (Hfresh (name ds)); apply list_elem_of_fmap.
        -- by exists ds.
        -- exists d. split; [done | apply list_elem_of_here].
    + rewrite lookup_insert_ne by done. rewrite (IH Hnd).
      split; [by left |]. intros [? | ->]; [done | congruence].
Qed.

(** Instance: the list of the nine corpora and the KDE4 corpus. *)
Lemma dict_by_name_round_trip_witness :
  NoDup (name <$> DATASET_LIST)
  ∧ (dict_by_name DATASET_LIST !! name KDE4 = Some KDE4 ↔ KDE4 ∈ DATASET_LIST).
Proof.
  assert (NoDup (name <$> DATASET_LIST)) as Hnd.
  { apply (bool_decide_unpack _). vm_compute. exact I. }
  split; [exact Hnd |].
  exact (dict_by_name_round_trip DATASET_LIST KDE4 Hnd).
Defined.

(** ** Configuration names *)

Lemma append_sep_inj (c : ascii) (s1 s2 t1 t2 : string) :
  contains_char c s1 = false →
  contains_char c s2 = false →
  s1 +:+ String c t1 = s2 +:+ String c t2 →
  s1 = s2 ∧ t1 = t2.
Proof.
  revert s2. induction s1 as [|a s1 IH]; intros [|b s2] H1 H2 Heq;
    simpl in *.
  - by injection Heq as ->.
  - injection Heq as <- _. by rewrite Ascii.eqb_refl in H2.
  - injection Heq as -> _. by rewrite Ascii.eqb_refl in H1.
  - injection Heq as -> Heq.
    apply orb_false_iff in H1 as [_ H1]. apply orb_false_iff in H2 as [_ H2].
    destruct (IH s2 H1 H2 Heq) as [-> ->]. done.
Qed.

Lemma string_app_assoc (s1 s2 s3 : string) :
  (s1 +:+ s2) +:+ s3 = s1 +:+ s2 +:+ s3.
Proof.
  induction s1 as [|c s1 IH]; [done |].
  change (String c ((s1 +:+ s2) +:+ s3) = String c (s1 +:+ s2 +:+ s3)).
  by rewrite IH.
Qed.

(** X3: the name of a configuration is the two codes joined by a hyphen, and
    its description is the name followed by " documents"; two configurations
    whose source codes hold no hyphen have the same name only when they have
    the same language pair. *)
Theorem OpusConfig_name_determines_pair
    (pair1 pair2 : string * string) (names1 names2 : list string) :
  contains_char "-" pair1.1 = false →
  contains_char "-" pair2.1 = false →
  config_name (OpusConfig_init pair1 names1)
  = config_name (OpusConfig_init pair2 names2) →
  pair1 = pair2
  ∧ config_name (OpusConfig_init pair1 names1) = pair1.1 +:+ "-" +:+ pair1.2
  ∧ config_description (OpusConfig_init pair1 names1)
    = pair1.1 +:+ "-" +:+ pair1.2 +:+ " documents".
Proof.
  destruct pair1 as [s1 t1], pair2 as [s2 t2]. simpl. intros H1 H2 Heq.
  destruct (append_sep_inj "-" s1 s2 t1 t2 H1 H2 Heq) as [-> ->].
  split_and!; [done | done |].
  by rewrite !string_app_assoc.
Qed.

(** Instance: two configurations for German to English with different
    subset lists. *)
Lemma OpusConfig_name_determines_pair_witness :
  contains_char "-" "de" = false
  ∧ config_name (OpusConfig_init ("de", "en") ["EMEA"])
    = config_name (OpusConfig_init ("de", "en") ["PHP"; "KDE4"])
  ∧ ("de", "en") = ("de", "en")
  ∧ config_name (OpusConfig_init ("de", "en") ["EMEA"]) = "de" +:+ "-" +:+ "en"
  ∧ config_description (OpusConfig_init ("de", "en") ["EMEA"])
    = "de" +:+ "-" +:+ "en" +:+ " documents".
Proof.
  split; [reflexivity |]. split; [reflexivity |].
  exact (OpusConfig_name_determines_pair ("de", "en") ("de", "en")
           ["EMEA"] ["PHP"; "KDE4"] eq_refl eq_refl eq_refl).
Defined.

(** Codes with a hyphen can make two different pairs share a name. *)
Example config_name_collision :
  config_name (OpusConfig_init ("zh-TW", "en") [])
  = config_name (OpusConfig_init ("zh", "TW-en") []).
Proof. reflexivity. Qed.

(** ** More on the [subsets] property *)

Lemma lookup_datasets_app names1 names2 :
  lookup_datasets (names1 ++ names2) =
  match lookup_datasets names1 with
  | Raise e => Raise e
  | Ok l1 =>
      match lookup_datasets names2 with
      | Raise e => Raise e
      | Ok l2 => Ok (l1 ++ l2)
      end
  end.
Proof.
  induction names1 as [|n ns IH]; simpl.
  - by destruct (lookup_datasets names2).
  - destruct (DATASET_MAP !! n); [|done]. rewrite IH.
    destruct (lookup_datasets ns); [|done].
    by destruct (lookup_datasets names2).
Qed.

(** X4: resolving a concatenated list of names gives the corpora of the
    first part followed by those of the second part, repeated names
    included; an unknown name in the first part raises before the second part
    is looked at, and the second part is looked up before anything is
    filtered. *)
Theorem Opus_subsets_app (pair : string * string) (names1 names2 : list string) :
  Opus_subsets (Opus_for pair (names1 ++ names2)) =
  match Opus_subsets (Opus_for pair names1) with
  | Raise e => Raise e
  | Ok items1 =>
      match Opus_subsets (Opus_for pair names2) with
      | Raise e => Raise e
      | Ok items2 => Ok (items1 ++ items2)
      end
  end.
Proof.
  rewrite !Opus_subsets_eq. simpl. rewrite lookup_datasets_app.
  destruct (lookup_datasets names1); [|done].
  destruct (lookup_datasets names2); [|done].
  by rewrite filter_app.
Qed.

Lemma DATASET_MAP_shape : map_Forall entry_shape DATASET_MAP.
Proof. apply (bool_decide_unpack _). vm_compute. exact I. Qed.

Lemma Opus_subsets_members (self : Opus) items ds :
  Opus_subsets self = Ok items →
  ds ∈ items →
  ∃ key, key ∈ subsets (builder_config self)
    ∧ DATASET_MAP !! key = Some ds
    ∧ supports (language_pair (builder_config self)).1
               (language_pair (builder_config self)).2 ds.
Proof.
  rewrite Opus_subsets_eq.
  destruct (lookup_datasets _) as [datasets|] eqn:Hlook; [|done].
  intros [= <-] [Hsup Hin]%list_elem_of_filter.
  apply lookup_datasets_Ok in Hlook.
  apply list_elem_of_lookup in Hin as [j Hj].
  destruct (Forall2_lookup_r _ _ _ _ _ Hlook Hj) as (key & Hkey & Hmap).
  exists key. split_and!; [by eapply list_elem_of_lookup_2 | done | done].
Qed.

(** X5: a request resolves to at least one corpus only for one of the five
    pairs of the catalogue, each in its listed order; in particular never for
    a pair of two equal codes. *)
Theorem Opus_subsets_nonempty_only_for_catalogue_pairs
    (self : Opus) (items : list SubDataset) :
  Opus_subsets self = Ok items →
  items ≠ [] →
  language_pair (builder_config self) ∈ CATALOGUE_PAIRS
  ∧ (language_pair (builder_config self)).1
    ≠ (language_pair (builder_config self)).2.
Proof.
  intros Hsub Hne. destruct items as [|ds items]; [done |].
  destruct (Opus_subsets_members self _ ds Hsub) as (key & _ & Hmap & Hsup);
    [apply list_elem_of_here |].
  destruct (DATASET_MAP_shape key ds Hmap) as (_ & _ & _ & _ & Hpairs).
  rewrite Forall_forall in Hpairs. unfold supports in Hsup. split.
  - destruct (language_pair (builder_config self)) as [s t]. by apply Hpairs.
  - by destruct (DATASET_MAP_pairs _ _ _ _ Hmap Hsup).
Qed.

(** Instance: the sample builder, which resolves to the EMEA corpus. *)
Lemma Opus_subsets_nonempty_only_for_catalogue_pairs_witness :
  Opus_subsets sample_builder = Ok [EMEA]
  ∧ [EMEA] ≠ []
  ∧ language_pair (builder_config sample_builder) ∈ CATALOGUE_PAIRS
  ∧ (language_pair (builder_config sample_builder)).1
    ≠ (language_pair (builder_config sample_builder)).2.
Proof.
  assert (Opus_subsets sample_builder = Ok [EMEA]) as Hsub
    by (vm_compute; reflexivity).
  assert ([EMEA] ≠ []) as Hne by discriminate.
  split; [exact Hsub |]. split; [exact Hne |].
  exact (Opus_subsets_nonempty_only_for_catalogue_pairs
           sample_builder [EMEA] Hsub Hne).
Defined.

(** ** More on [_split_generators] *)

Lemma split_loop_Raise source target file_ext before item after dirs acc
    dl_manager e :
  Forall2 (λ item dir, extract_dir dl_manager (locator_of file_ext item) = Ok dir)
          before dirs →
  extract_dir dl_manager (locator_of file_ext item) = Raise e →
  split_loop source target file_ext (before ++ item :: after) acc dl_manager
  = (Raise e,
     record_download (locator_of file_ext <$> before ++ [item]) dl_manager).
Proof.
  intros H. revert dirs acc dl_manager H.
  induction before as [|b before IH]; intros dirs acc dl H Hfail.
  - simpl. unfold download_and_extract. by rewrite Hfail.
  - apply Forall2_cons_inv_l in H as (dir & dirs' & Hdir & Hrest & ->).
    simpl. unfold download_and_extract. rewrite Hdir.
    change {| extract_dir := extract_dir dl;
              downloaded := downloaded dl ++ [locator_of file_ext b] |}
      with (record_download [locator_of file_ext b] dl).
    rewrite (IH dirs') by done.
    by rewrite record_download_app.
Qed.

(** X6: when the download for one of the corpora that passed the filter
    raises, after the downloads for the corpora before it succeeded,
    [_split_generators] raises the same exception; the archives of the
    corpora up to and including the failing one have been requested, in
    order, and none of the later ones. *)
Theorem Opus_split_generators_download_failure (self : Opus)
    (dl_manager : DownloadManager) (before after : list SubDataset)
    (item : SubDataset) (dirs : list string) (e : Exn) :
  let source := (language_pair (builder_config self)).1 in
  let target := (language_pair (builder_config self)).2 in
  let locator item :=
    os_path_join (url item) ((source +:+ "-" +:+ target) +:+ ".txt.zip") in
  Opus_subsets self = Ok (before ++ item :: after) →
  Forall2 (λ item dl_dir, extract_dir dl_manager (locator item) = Ok dl_dir)
          before dirs →
  extract_dir dl_manager (locator item) = Raise e →
  ∃ dl_manager',
    Opus_split_generators self dl_manager = (Raise e, dl_manager')
    ∧ downloaded dl_manager'
      = downloaded dl_manager ++ (locator <$> before) ++ [locator item].
Proof.
  intros source target locator Hsub Hbefore Hfail.
  exists (record_download (locator <$> before ++ [item]) dl_manager).
  rewrite Opus_split_generators_eq, Hsub. cbv zeta.
  fold source target.
  rewrite (split_loop_Raise source target (source +:+ "-" +:+ target)
             before item after dirs [] dl_manager e Hbefore Hfail).
  split; [done |]. simpl. by rewrite fmap_app.
Qed.

(** Instance: German to English over EMEA, PHP and KDE4, with a manager that
    fails on the PHP archive. *)
Lemma Opus_split_generators_download_failure_witness :
  let self := Opus_for ("de", "en") ["EMEA"; "PHP"; "KDE4"] in
  let bad := "http://opus.nlpl.eu/download.php?f=PHP/v1/moses/de-en.txt.zip" in
  let locator item := os_path_join (url item) (("de" +:+ "-" +:+ "en") +:+ ".txt.zip") in
  Opus_subsets self = Ok ([EMEA] ++ PHP :: [KDE4])
  ∧ Forall2 (λ item dl_dir,
               extract_dir (failing_manager bad) (locator item) = Ok dl_dir)
            [EMEA] ["/data/extracted"]
  ∧ extract_dir (failing_manager bad) (locator PHP) = Raise (DownloadError bad)
  ∧ ∃ dl_manager',
      Opus_split_generators self (failing_manager bad)
      = (Raise (DownloadError bad), dl_manager')
      ∧ downloaded dl_manager'
        = [] ++ (locator <$> [EMEA]) ++ [locator PHP].
Proof.
  intros self bad locator.
  assert (Opus_subsets self = Ok ([EMEA] ++ PHP :: [KDE4])) as Hsub
    by (vm_compute; reflexivity).
  assert (Forall2 (λ item dl_dir,
                     extract_dir (failing_manager bad) (locator item) = Ok dl_dir)
                  [EMEA] ["/data/extracted"]) as Hbefore
    by (repeat constructor).
  assert (extract_dir (failing_manager bad) (locator PHP)
          = Raise (DownloadError bad)) as Hfail
    by (vm_compute; reflexivity).
  split; [exact Hsub |]. split; [exact Hbefore |]. split; [exact Hfail |].
  exact (Opus_split_generators_download_failure self (failing_manager bad)
           [EMEA] [KDE4] PHP ["/data/extracted"] (DownloadError bad)
           Hsub Hbefore Hfail).
Defined.

Lemma startswith_sep_app (s rest : string) :
  truthy s = true → startswith_sep (s +:+ rest) = startswith_sep s.
Proof. by destruct s. Qed.

Lemma os_path_join_inj_r (dir b1 b2 : string) :
  startswith_sep b1 = false →
  startswith_sep b2 = false →
  os_path_join dir b1 = os_path_join dir b2 →
  b1 = b2.
Proof.
  unfold os_path_join. intros -> ->.
  destruct (negb (truthy dir) || endswith_sep dir); intros H.
  - by apply (inj (String.app dir)) in H.
  - apply (inj (String.app dir)) in H. by apply (inj (String.app "/")) in H.
Qed.

(** X7: every subset handed to the generator bears the name of a catalogue
    corpus listed in the configuration, and its source path and target path
    differ, whatever directory the download manager returned. *)
Theorem resolved_subset_paths_differ (self : Opus) (item : ResolvedSubset) :
  resolved_for self item →
  source_file item ≠ target_file item
  ∧ subset_name item ∈ subsets (builder_config self)
  ∧ known (subset_name item).
Proof.
  intros (key & ds & dir & Hkey & Hmap & Hsup & ->)%resolved_for_inv.
  destruct (DATASET_MAP_pairs _ _ _ _ Hmap Hsup) as [Hne _].
  destruct (DATASET_MAP_shape key ds Hmap) as (_ & Hstart & Htruthy & _).
  pose proof (DATASET_MAP_name key ds Hmap) as Hname.
  simpl. split_and!.
  - intros Heq. apply os_path_join_inj_r in Heq;
      [| by rewrite startswith_sep_app..].
    apply (inj (String.app (filename ds))) in Heq.
    apply (inj (String.app ".")) in Heq.
    apply (inj (String.app _)) in Heq.
    by apply (inj (String.app ".")) in Heq.
  - by rewrite Hname.
  - rewrite Hname. unfold known. by rewrite Hmap.
Qed.

(** Instance: the sample subset. *)
Lemma resolved_subset_paths_differ_witness :
  resolved_for sample_builder sample_item
  ∧ source_file sample_item ≠ target_file sample_item
  ∧ subset_name sample_item ∈ subsets (builder_config sample_builder)
  ∧ known (subset_name sample_item).
Proof.
  split; [exact sample_item_resolved |].
  exact (resolved_subset_paths_differ sample_builder sample_item
           sample_item_resolved).
Defined.

Lemma CATALOGUE_PAIRS_sources :
  Forall (λ p, startswith_sep p.1 = false ∧ truthy p.1 = true) CATALOGUE_PAIRS.
Proof. apply (bool_decide_unpack _). vm_compute. exact I. Qed.

Lemma catalogue_locator key ds source target :
  DATASET_MAP !! key = Some ds →
  supports source target ds →
  os_path_join (url ds) ((source +:+ "-" +:+ target) +:+ ".txt.zip")
  = url ds +:+ (source +:+ "-" +:+ target) +:+ ".txt.zip".
Proof.
  intros Hmap Hsup.
  destruct (DATASET_MAP_shape key ds Hmap) as (Hurl & _ & _ & _ & Hpairs).
  rewrite Forall_forall in Hpairs. apply Hpairs in Hsup.
  pose proof CATALOGUE_PAIRS_sources as Hsrc. rewrite Forall_forall in Hsrc.
  destruct (Hsrc _ Hsup) as [Hstart Htruthy]. simpl in Hstart, Htruthy.
  unfold os_path_join.
  rewrite string_app_assoc, startswith_sep_app, Hstart by done.
  by rewrite Hurl, orb_true_r.
Qed.

(** X8: whenever [_split_generators] succeeds for a configuration built from
    a pair and a list of names, the archives it requested are, in order and
    one per corpus that passed the filter, the corpus url immediately
    followed by the configuration name and ".txt.zip": for catalogue corpora
    the path join adds no separator and never drops the url. *)
Theorem locators_are_url_then_config_name
    (pair : string * string) (names : list string)
    (dl_manager dl_manager' : DownloadManager) (splits : list SplitGenerator) :
  Opus_split_generators (Opus_for pair names) dl_manager
  = (Ok splits, dl_manager') →
  ∃ items,
    Opus_subsets (Opus_for pair names) = Ok items
    ∧ downloaded dl_manager'
      = downloaded dl_manager
        ++ ((λ item, url item
                       +:+ config_name (builder_config (Opus_for pair names))
                       +:+ ".txt.zip") <$> items).
Proof.
  intros Hrun. rewrite Opus_split_generators_eq in Hrun. cbv zeta in Hrun.
  destruct (Opus_subsets (Opus_for pair names)) as [items|] eqn:Hsub; [|done].
  destruct (split_loop _ _ _ _ _ _) as [[rs|] dl1] eqn:Hloop; [|done].
  injection Hrun as _ <-.
  apply split_loop_inv in Hloop as (dirs & _ & _ & ->).
  exists items. split; [done |]. simpl. f_equal.
  apply list_fmap_ext. intros i ds Hi.
  destruct (Opus_subsets_members _ _ ds Hsub) as (key & _ & Hmap & Hsup);
    [by eapply list_elem_of_lookup_2 |].
  simpl in Hsup. unfold locator_of.
  exact (catalogue_locator key ds pair.1 pair.2 Hmap Hsup).
Qed.

(** Instance: the sample builder with the sample manager. *)
Lemma locators_are_url_then_config_name_witness :
  ∃ splits dl_manager',
    Opus_split_generators sample_builder sample_manager = (Ok splits, dl_manager')
    ∧ ∃ items,
        Opus_subsets sample_builder = Ok items
        ∧ downloaded dl_manager'
          = downloaded sample_manager
            ++ ((λ item, url item
                           +:+ config_name (builder_config sample_builder)
                           +:+ ".txt.zip") <$> items).
Proof.
  eexists. eexists.
  assert (Opus_split_generators sample_builder sample_manager
          = (Ok [ {| split_name := TRAIN; gen_kwargs := [sample_item] |} ],
             record_download
               ["http://opus.nlpl.eu/download.php?f=EMEA/v3/moses/de-en.txt.zip"]
               sample_manager)) as Hrun
    by (vm_compute; reflexivity).
  split; [exact Hrun |].
  exact (locators_are_url_then_config_name ("de", "en") ["EMEA"; "OpenOffice"]
           sample_manager _ _ Hrun).
Defined.

(** ** More on the generator *)

(** X9: a run over a concatenation of two lists of subsets is the run over
    the first list followed by the run over the second, unless the first run
    ended with an exception, in which case nothing of the second list is read
    or yielded. *)
Theorem Opus_generate_examples_app (self : Opus)
    (subsets1 subsets2 : list ResolvedSubset) (w : World) :
  (Opus_generate_examples self (subsets1 ++ subsets2) w).1 =
  match (Opus_generate_examples self subsets1 w).1.2 with
  | Some e => (Opus_generate_examples self subsets1 w).1
  | None =>
      ((Opus_generate_examples self subsets1 w).1.1
         ++ (Opus_generate_examples self subsets2 w).1.1,
       (Opus_generate_examples self subsets2 w).1.2)
  end.
Proof.
  induction subsets1 as [|item rest IH].
  - simpl. by destruct (Opus_generate_examples self subsets2 w) as [[? ?] ?].
  - rewrite <- app_comm_cons, !Opus_generate_examples_cons.
    destruct (files w !! source_file item); [|done].
    destruct (files w !! target_file item); [|done].
    cbv zeta.
    destruct (Opus_generate_examples self (rest ++ subsets2) w)
      as [[more exn] w1].
    destruct (Opus_generate_examples self rest w) as [[more1 exn1] w2].
    destruct (Opus_generate_examples self subsets2 w) as [[more2 exn2] w3].
    simpl in *. destruct exn1; injection IH as -> ->; [done |].
    by rewrite app_assoc.
Qed.

Lemma Opus_generate_examples_present (self : Opus) subsets w :
  Forall (present w) subsets →
  (Opus_generate_examples self subsets w).1.2 = None.
Proof.
  induction 1 as [|item rest [[stext Hs] [ttext Ht]] _ IH]; [done |].
  rewrite Opus_generate_examples_cons, Hs, Ht. cbv zeta.
  by destruct (Opus_generate_examples self rest w) as [[more exn] w1].
Qed.

(** X10: when every subset before some subset has both its files and that
    subset lacks one, the run yields the records of the earlier subsets,
    then ends with [NotFoundError] for the missing path, the source path
    being tried first; nothing is yielded for that subset or for the later
    ones, and the file store is left as it was. *)
Theorem missing_file_ends_run (self : Opus)
    (before after : list ResolvedSubset) (item : ResolvedSubset) (w : World) :
  Forall (present w) before →
  ¬ present w item →
  ∃ path,
    Opus_generate_examples self (before ++ item :: after) w
    = (((Opus_generate_examples self before w).1.1,
        Some (NotFoundError path)), w)
    ∧ files w !! path = None
    ∧ (path = source_file item
       ∨ (path = target_file item ∧ is_Some (files w !! source_file item))).
Proof.
  intros Hbefore Hmissing.
  induction Hbefore as [|b rest [[stext Hs] [ttext Ht]] _ IH].
  - simpl app. rewrite Opus_generate_examples_cons.
    destruct (files w !! source_file item) as [stext|] eqn:Hs.
    + destruct (files w !! target_file item) as [ttext|] eqn:Ht.
      * destruct Hmissing. split; by eexists.
      * exists (target_file item). split_and!; [done | done |].
        right. split; [done | by eexists].
    + exists (source_file item). split_and!; [done | done |]. by left.
  - destruct IH as (path & Heq & Hnone & Hpath). exists path.
    split_and!; [| done | done].
    rewrite <- app_comm_cons, !Opus_generate_examples_cons, Hs, Ht, Heq.
    cbv zeta.
    by destruct (Opus_generate_examples self rest w) as [[more exn] w1].
Qed.

(** Instance: the sample subset first, then a subset whose target file is
    not in the store. *)
Lemma missing_file_ends_run_witness :
  let w := sample_world worked_source_text worked_target_text in
  let orphan := {| subset_name := "PHP";
                   source_file := "/data/extracted/EMEA.de-en.de";
                   target_file := "/data/extracted/PHP.de-en.en" |} in
  Forall (present w) [sample_item]
  ∧ ¬ present w orphan
  ∧ ∃ path,
      Opus_generate_examples sample_builder ([sample_item] ++ orphan :: []) w
      = (((Opus_generate_examples sample_builder [sample_item] w).1.1,
          Some (NotFoundError path)), w)
      ∧ files w !! path = None
      ∧ (path = source_file orphan
         ∨ (path = target_file orphan
            ∧ is_Some (files w !! source_file orphan))).
Proof.
  intros w orphan.
  assert (Forall (present w) [sample_item]) as Hbefore.
  { repeat constructor; by eexists. }
  assert (¬ present w orphan) as Hmissing.
  { intros [_ [text Htext]]. vm_compute in Htext. discriminate. }
  split; [exact Hbefore |]. split; [exact Hmissing |].
  exact (missing_file_ends_run sample_builder [sample_item] [] orphan w
           Hbefore Hmissing).
Defined.

Lemma elem_of_Opus_generate_examples (self : Opus) subsets w key result :
  (key, result) ∈ (Opus_generate_examples self subsets w).1.1 →
  ∃ item stext ttext,
    item ∈ subsets
    ∧ files w !! source_file item = Some stext
    ∧ files w !! target_file item = Some ttext
    ∧ (key, result)
      ∈ pair_loop (subset_name item)
                  (language_pair (builder_config self)).1
                  (language_pair (builder_config self)).2
                  (split_newline stext) (split_newline ttext).
Proof.
  induction subsets as [|item rest IH]; [by intros ?%elem_of_nil |].
  rewrite Opus_generate_examples_cons.
  destruct (files w !! source_file item) as [stext|] eqn:Hs;
    [|by intros ?%elem_of_nil].
  destruct (files w !! target_file item) as [ttext|] eqn:Ht;
    [|by intros ?%elem_of_nil].
  cbv zeta.
  destruct (Opus_generate_examples self rest w) as [[more exn] w1].
  simpl in *. intros [Hin | Hin]%elem_of_app.
  - exists item, stext, ttext. split_and!; try done. apply list_elem_of_here.
  - destruct (IH Hin) as (it & st & tt & Hit & ? & ? & ?).
    exists it, st, tt. split_and!; try done. by apply list_elem_of_further.
Qed.

(** ** Keys of a run *)

Lemma omap_ext_pointwise {A B} (f g : A → option B) (l : list A) :
  (∀ x, f x = g x) → omap f l = omap g l.
Proof.
  intros Hfg. induction l as [|a l IH]; [done |].
  csimpl. by rewrite Hfg, IH.
Qed.

Lemma kept_indices_sorted {A} (p : A → bool) (k : nat) (l : list A) :
  let idxs :=
    omap (λ '(idx, x), if p x then Some idx else None)
         (imap (λ i x, (k + i, x)) l) in
  StronglySorted lt idxs ∧ Forall (λ j, k ≤ j < k + length l) idxs.
Proof.
  revert k. induction l as [|a l IH]; intros k.
  - split; constructor.
  - rewrite imap_cons.
    rewrite (imap_ext _ (λ i x, (S k + i, x)))
      by (intros; simpl; f_equal; lia).
    destruct (IH (S k)) as [Hsorted Hrange].
    replace (k + 0) with k by lia. csimpl.
    assert (Forall (λ j, k ≤ j < k + S (length l))
              (omap (λ '(idx, x), if p x then Some idx else None)
                    (imap (λ i x, (S k + i, x)) l))) as Hrange'.
    { eapply Forall_impl; [exact Hrange |]. simpl. lia. }
    destruct (p a); csimpl; [|done].
    split.
    + constructor; [done |].
      eapply Forall_impl; [exact Hrange |]. simpl. lia.
    + constructor; [simpl; lia | done].
Qed.

Lemma StronglySorted_lt_NoDup (l : list nat) : StronglySorted lt l → NoDup l.
Proof.
  induction 1 as [|x l _ IH Hall]; constructor; [|done].
  intros Hin. rewrite Forall_forall in Hall. specialize (Hall x Hin). lia.
Qed.

Lemma pair_loop_keys item_name source target src tgt :
  ∃ idxs,
    (pair_loop item_name source target src tgt).*1
    = example_key item_name <$> idxs
    ∧ StronglySorted lt idxs
    ∧ Forall (λ idx, idx < Nat.min (length src) (length tgt)) idxs.
Proof.
  pose proof (kept_indices_sorted
                (λ '(ss, ts), all_values (result_dict source target ss ts))
                0 (zip src tgt)) as [Hsorted Hrange].
  eexists. split; [|split; [exact Hsorted |]].
  - unfold pair_loop, enumerate. rewrite !list_fmap_omap.
    apply omap_ext_pointwise. intros [idx [ss ts]]. simpl.
    by destruct (all_values _).
  - eapply Forall_impl; [exact Hrange |]. simpl. intros j.
    rewrite length_zip_with. lia.
Qed.

(** X11: within one subset whose files are present the records are yielded
    by increasing line index: the keys are the subset name, a slash and the
    decimal index, for a strictly increasing sequence of indices below both
    line counts. *)
Theorem yielded_keys_follow_line_order (self : Opus) (item : ResolvedSubset)
    (w : World) (stext ttext : string) :
  files w !! source_file item = Some stext →
  files w !! target_file item = Some ttext →
  ∃ idxs,
    (Opus_generate_examples self [item] w).1.1.*1
    = (λ idx, subset_name item +:+ "/" +:+ fmt_d idx) <$> idxs
    ∧ StronglySorted lt idxs
    ∧ Forall (λ idx, idx < Nat.min (length (split_newline stext))
                                   (length (split_newline ttext))) idxs.
Proof.
  intros Hs Ht.
  rewrite (Opus_generate_examples_single self item w stext ttext Hs Ht).
  apply pair_loop_keys.
Qed.

(** Instance: the sample subset over the two contents of the worked
    example. *)
Lemma yielded_keys_follow_line_order_witness :
  let w := sample_world worked_source_text worked_target_text in
  files w !! source_file sample_item = Some worked_source_text
  ∧ files w !! target_file sample_item = Some worked_target_text
  ∧ ∃ idxs,
      (Opus_generate_examples sample_builder [sample_item] w).1.1.*1
      = (λ idx, subset_name sample_item +:+ "/" +:+ fmt_d idx) <$> idxs
      ∧ StronglySorted lt idxs
      ∧ Forall (λ idx, idx < Nat.min (length (split_newline worked_source_text))
                                     (length (split_newline worked_target_text)))
               idxs.
Proof.
  intros w.
  assert (files w !! source_file sample_item = Some worked_source_text) as Hs
    by (vm_compute; reflexivity).
  assert (files w !! target_file sample_item = Some worked_target_text) as Ht
    by (vm_compute; reflexivity).
  split; [exact Hs |]. split; [exact Ht |].
  exact (yielded_keys_follow_line_order sample_builder sample_item w
           worked_source_text worked_target_text Hs Ht).
Defined.

Lemma example_key_inj_name (name1 name2 : string) (i j : nat) :
  contains_char "/" name1 = false →
  contains_char "/" name2 = false →
  example_key name1 i = example_key name2 j →
  name1 = name2.
Proof.
  unfold example_key. intros H1 H2 Heq.
  by destruct (append_sep_inj "/" name1 name2 (fmt_d i) (fmt_d j) H1 H2 Heq).
Qed.

Lemma NoDup_pair_loop_keys item_name source target src tgt :
  NoDup (pair_loop item_name source target src tgt).*1.
Proof.
  destruct (pair_loop_keys item_name source target src tgt)
    as (idxs & -> & Hsorted & _).
  apply NoDup_fmap_2_strong; [|by apply StronglySorted_lt_NoDup].
  intros i j _ _. apply example_key_inj.
Qed.

Lemma NoDup_run_keys (self : Opus) (subsets : list ResolvedSubset) (w : World) :
  NoDup (subset_name <$> subsets) →
  Forall (λ item, contains_char "/" (subset_name item) = false) subsets →
  NoDup (Opus_generate_examples self subsets w).1.1.*1.
Proof.
  induction subsets as [|item rest IH]; intros Hnd Hsep; [constructor |].
  rewrite fmap_cons in Hnd. apply NoDup_cons in Hnd as [Hfresh Hnd].
  apply Forall_cons in Hsep as [Hitem Hsep].
  specialize (IH Hnd Hsep).
  pose proof (elem_of_Opus_generate_examples self rest w) as Hrest.
  rewrite Opus_generate_examples_cons.
  destruct (files w !! source_file item) as [stext|]; [|constructor].
  destruct (files w !! target_file item) as [ttext|]; [|constructor].
  cbv zeta.
  destruct (Opus_generate_examples self rest w) as [[more exn] w1].
  simpl in *. rewrite fmap_app. apply NoDup_app. split_and!.
  - apply NoDup_pair_loop_keys.
  - intros key Hin1 Hin2.
    apply list_elem_of_fmap in Hin1 as ([k1 r1] & -> & Hin1).
    apply list_elem_of_fmap in Hin2 as ([k2 r2] & Hk & Hin2). simpl in Hk.
    apply elem_of_pair_loop in Hin1 as (i & _ & _ & _ & _ & _ & -> & _).
    destruct (Hrest k2 r2 Hin2) as (it & st & tt & Hit & _ & _ & Hloop).
    apply elem_of_pair_loop in Hloop as (j & _ & _ & _ & _ & _ & -> & _).
    rewrite Forall_forall in Hsep.
    apply example_key_inj_name in Hk; [|done | by apply Hsep].
    apply Hfresh. rewrite Hk. apply list_elem_of_fmap. by exists it.
  - done.
Qed.

(** X12: when the configured list of subset names has no repetition, all
    the keys yielded by a run over the subsets that [_split_generators]
    produced are pairwise different. *)
Theorem keys_of_a_run_are_distinct (self : Opus)
    (dl_manager dl_manager' : DownloadManager)
    (splits : list SplitGenerator) (split : SplitGenerator) (w : World) :
  NoDup (subsets (builder_config self)) →
  Opus_split_generators self dl_manager = (Ok splits, dl_manager') →
  split ∈ splits →
  NoDup (Opus_generate_examples self (gen_kwargs split) w).1.1.*1.
Proof.
  intros Hnd Hrun Hsplit.
  assert (∀ item, item ∈ gen_kwargs split → resolved_for self item) as Hres.
  { intros item Hitem. by exists dl_manager, splits, dl_manager', split. }
  rewrite Opus_split_generators_eq, Opus_subsets_eq in Hrun. cbv zeta in Hrun.
  destruct (lookup_datasets _) as [datasets|] eqn:Hlook; [|done].
  destruct (split_loop _ _ _ _ _ _) as [[rs|] dl1] eqn:Hloop; [|done].
  injection Hrun as <- <-.
  apply list_elem_of_singleton in Hsplit as ->. simpl in *.
  apply split_loop_inv in Hloop as (dirs & Hdirs & -> & _). simpl in *.
  apply NoDup_run_keys.
  - rewrite zip_with_resolved_names
      by (symmetry; by eapply Forall2_length).
    rewrite (filter_supports_names _ _ _ _ Hlook).
    by apply NoDup_filter.
  - apply Forall_forall. intros item Hitem.
    destruct (resolved_for_inv self item (Hres item Hitem))
      as (key & ds & dir & _ & Hmap & _ & ->).
    by destruct (DATASET_MAP_shape key ds Hmap) as (_ & _ & _ & ? & _).
Qed.

(** Instance: the sample builder, manager and file store. *)
Lemma keys_of_a_run_are_distinct_witness :
  let w := sample_world worked_source_text worked_target_text in
  let split := {| split_name := TRAIN; gen_kwargs := [sample_item] |} in
  NoDup (subsets (builder_config sample_builder))
  ∧ Opus_split_generators sample_builder sample_manager
    = (Ok [split],
       record_download
         ["http://opus.nlpl.eu/download.php?f=EMEA/v3/moses/de-en.txt.zip"]
         sample_manager)
  ∧ split ∈ [split]
  ∧ NoDup (Opus_generate_examples sample_builder (gen_kwargs split) w).1.1.*1.
Proof.
  intros w split.
  assert (NoDup (subsets (builder_config sample_builder))) as Hnd.
  { apply (bool_decide_unpack _). vm_compute. exact I. }
  assert (Opus_split_generators sample_builder sample_manager
          = (Ok [split],
             record_download
               ["http://opus.nlpl.eu/download.php?f=EMEA/v3/moses/de-en.txt.zip"]
               sample_manager)) as Hrun
    by (vm_compute; reflexivity).
  assert (split ∈ [split]) as Hsplit by apply list_elem_of_here.
  split; [exact Hnd |]. split; [exact Hrun |]. split; [exact Hsplit |].
  exact (keys_of_a_run_are_distinct sample_builder sample_manager _ _ split w
           Hnd Hrun Hsplit).
Defined.

(** ** Lines *)

Lemma join_newline_cons_char c piece pieces :
  join_newline (String c piece :: pieces) = String c (join_newline (piece :: pieces)).
Proof. by destruct pieces. Qed.

(** X13: splitting a file content into lines loses nothing and trims
    nothing: the lines joined by newline characters give the content back,
    there is one line more than the content has newline characters, and no
    line holds a newline character. *)
Theorem split_newline_round_trip (text : string) :
  join_newline (split_newline text) = text
  ∧ length (split_newline text) = S (count_char newline text)
  ∧ Forall (λ line, contains_char newline line = false) (split_newline text).
Proof.
  induction text as [|c rest (IHjoin & IHlen & IHall)]; simpl.
  - split_and!; [done | done |]. by constructor.
  - pose proof (split_newline_nonempty rest) as Hne.
    destruct (Ascii.eqb c newline) eqn:Hc.
    + apply Ascii.eqb_eq in Hc as ->. split_and!.
      * destruct (split_newline rest) as [|p ps]; [done |].
        by rewrite <- IHjoin.
      * simpl. by rewrite IHlen.
      * by constructor.
    + destruct (split_newline rest) as [|p ps]; [done |].
      apply Forall_cons in IHall as [Hp Hps]. split_and!.
      * by rewrite join_newline_cons_char, IHjoin.
      * simpl in *. lia.
      * constructor; [|done]. simpl. by rewrite Hc, Hp.
Qed.

Lemma split_newline_no_newline (text : string) :
  Forall (λ line, contains_char newline line = false) (split_newline text).
Proof.
  induction text as [|c rest IH]; simpl; [by constructor |].
  destruct (Ascii.eqb c newline) eqn:Hc; [by constructor |].
  pose proof (split_newline_nonempty rest) as Hne.
  destruct (split_newline rest) as [|p ps]; [done |].
  apply Forall_cons in IH as [Hp Hps].
  constructor; [|done]. simpl. by rewrite Hc, Hp.
Qed.

(** X14: no sentence of a yielded record holds a newline character, and
    every sentence is a line of the source file or of the target file of one
    of the subsets. *)
Theorem yielded_sentences_are_lines (self : Opus)
    (subsets : list ResolvedSubset) (w : World)
    (key field sentence : string) (result : gmap string string) :
  (key, result) ∈ (Opus_generate_examples self subsets w).1.1 →
  result !! field = Some sentence →
  contains_char newline sentence = false
  ∧ ∃ item text,
      item ∈ subsets
      ∧ (files w !! source_file item = Some text
         ∨ files w !! target_file item = Some text)
      ∧ sentence ∈ split_newline text.
Proof.
  intros Hin Hfield.
  destruct (elem_of_Opus_generate_examples self subsets w key result Hin)
    as (item & stext & ttext & Hitem & Hs & Ht & Hloop).
  apply elem_of_pair_loop in Hloop as (i & ss & ts & Hi & Hj & _ & _ & ->).
  pose proof (split_newline_no_newline stext) as Hsrc.
  pose proof (split_newline_no_newline ttext) as Htgt.
  rewrite Forall_forall in Hsrc, Htgt.
  apply list_elem_of_lookup_2 in Hi, Hj.
  unfold result_dict in Hfield.
  apply lookup_insert_Some in Hfield as [[_ <-] | [_ Hfield]].
  - split; [by apply Htgt |]. exists item, ttext. by split_and!; [| right |].
  - apply lookup_insert_Some in Hfield as [[_ <-] | [_ Hfield]]; [|done].
    split; [by apply Hsrc |]. exists item, stext. by split_and!; [| left |].
Qed.

(** Instance: the German sentence of the record at index 3 of the worked
    example. *)
Lemma yielded_sentences_are_lines_witness :
  let w := sample_world worked_source_text worked_target_text in
  let result := <["en" := "w"]> {["de" := "c"]} in
  ("EMEA/3", result)
    ∈ (Opus_generate_examples sample_builder [sample_item] w).1.1
  ∧ result !! "de" = Some "c"
  ∧ contains_char newline "c" = false
  ∧ ∃ item text,
      item ∈ [sample_item]
      ∧ (files w !! source_file item = Some text
         ∨ files w !! target_file item = Some text)
      ∧ "c" ∈ split_newline text.
Proof.
  intros w result.
  assert (("EMEA/3", result)
          ∈ (Opus_generate_examples sample_builder [sample_item] w).1.1) as Hin.
  { replace (Opus_generate_examples sample_builder [sample_item] w).1.1
      with [ ("EMEA/0", <["en" := "x"]> {["de" := "a"]});
             ("EMEA/1", <["en" := "y"]> {["de" := "b"]});
             ("EMEA/3", result) ]
      by (vm_compute; reflexivity).
    apply list_elem_of_further, list_elem_of_further, list_elem_of_here. }
  assert (result !! "de" = Some "c") as Hfield by (vm_compute; reflexivity).
  split; [exact Hin |]. split; [exact Hfield |].
  exact (yielded_sentences_are_lines sample_builder [sample_item] w
           "EMEA/3" "de" "c" result Hin Hfield).
Defined.

(** ** Records against [_info] *)

(** X15: every record yielded from the subsets that [_split_generators]
    produced has exactly the two language fields that [_info] declares as
    features, the two supervised keys of [_info] are different fields of the
    record, and both hold a non-empty sentence. *)
Theorem yielded_records_match_info (self : Opus)
    (dl_manager dl_manager' : DownloadManager)
    (splits : list SplitGenerator) (split : SplitGenerator) (w : World)
    (key : string) (result : gmap string string) :
  Opus_split_generators self dl_manager = (Ok splits, dl_manager') →
  split ∈ splits →
  (key, result) ∈ (Opus_generate_examples self (gen_kwargs split) w).1.1 →
  let info := Opus_info self in
  dom result = {[ (languages (features info)).1; (languages (features info)).2 ]}
  ∧ (supervised_keys info).1 ≠ (supervised_keys info).2
  ∧ ∃ ss ts,
      result !! (supervised_keys info).1 = Some ss
      ∧ result !! (supervised_keys info).2 = Some ts
      ∧ ss ≠ EmptyString ∧ ts ≠ EmptyString.
Proof.
  intros Hrun Hsplit Hin. simpl.
  destruct (elem_of_Opus_generate_examples self _ w key result Hin)
    as (item & stext & ttext & Hitem & _ & _ & Hloop).
  assert (resolved_for self item) as Hres
    by (by exists dl_manager, splits, dl_manager', split).
  pose proof (resolved_for_distinct self item Hres) as Hne.
  apply elem_of_pair_loop in Hloop as (i & ss & ts & _ & _ & Hall & _ & ->).
  apply all_values_result_dict in Hall as [Hss Hts]; [|done].
  destruct (result_dict_lookup _ _ ss ts Hne) as [Hl1 Hl2].
  split_and!; [| done |].
  - unfold result_dict. rewrite !dom_insert_L, dom_empty_L.
    by rewrite (right_id_L ∅ (∪)), (comm_L (∪)).
  - by exists ss, ts.
Qed.

(** Instance: the record at index 1 of the worked example. *)
Lemma yielded_records_match_info_witness :
  let w := sample_world worked_source_text worked_target_text in
  let split := {| split_name := TRAIN; gen_kwargs := [sample_item] |} in
  let result := <["en" := "y"]> {["de" := "b"]} in
  let manager' :=
    record_download
      ["http://opus.nlpl.eu/download.php?f=EMEA/v3/moses/de-en.txt.zip"]
      sample_manager in
  Opus_split_generators sample_builder sample_manager = (Ok [split], manager')
  ∧ split ∈ [split]
  ∧ ("EMEA/1", result)
    ∈ (Opus_generate_examples sample_builder (gen_kwargs split) w).1.1
  ∧ dom result = {[ "de"; "en" ]}
  ∧ "de" ≠ "en"
  ∧ ∃ ss ts,
      result !! "de" = Some ss ∧ result !! "en" = Some ts
      ∧ ss ≠ EmptyString ∧ ts ≠ EmptyString.
Proof.
  intros w split result manager'.
  assert (Opus_split_generators sample_builder sample_manager
          = (Ok [split], manager')) as Hrun
    by (vm_compute; reflexivity).
  assert (split ∈ [split]) as Hsplit by apply list_elem_of_here.
  assert (("EMEA/1", result)
          ∈ (Opus_generate_examples sample_builder (gen_kwargs split) w).1.1)
    as Hin.
  { replace (Opus_generate_examples sample_builder (gen_kwargs split) w).1.1
      with [ ("EMEA/0", <["en" := "x"]> {["de" := "a"]});
             ("EMEA/1", result);
             ("EMEA/3", <["en" := "w"]> {["de" := "c"]}) ]
      by (vm_compute; reflexivity).
    apply list_elem_of_further, list_elem_of_here. }
  split; [exact Hrun |]. split; [exact Hsplit |]. split; [exact Hin |].
  exact (yielded_records_match_info sample_builder sample_manager manager'
           [split] split w "EMEA/1" result Hrun Hsplit Hin).
Defined.

(** ** What a run reads *)

(** X16: a run reads nothing but the source file and the target file of its
    subsets: two file stores that agree on these paths give the same records
    and the same ending, whatever else they hold. *)
Theorem Opus_generate_examples_reads_only_subset_files (self : Opus)
    (subsets : list ResolvedSubset) (w w' : World) :
  Forall (λ item,
            files w !! source_file item = files w' !! source_file item
            ∧ files w !! target_file item = files w' !! target_file item)
         subsets →
  (Opus_generate_examples self subsets w).1
  = (Opus_generate_examples self subsets w').1.
Proof.
  induction 1 as [|item rest [Hs Ht] _ IH]; [done |].
  rewrite !Opus_generate_examples_cons, <- Hs, <- Ht.
  destruct (files w !! source_file item); [|done].
  destruct (files w !! target_file item); [|done].
  cbv zeta.
  destruct (Opus_generate_examples self rest w) as [[more exn] w1].
  destruct (Opus_generate_examples self rest w') as [[more' exn'] w1'].
  simpl in IH. by injection IH as -> ->.
Qed.

(** Instance: the sample store and the same store with one more file and a
    handle left open. *)
Lemma Opus_generate_examples_reads_only_subset_files_witness :
  let w := sample_world worked_source_text worked_target_text in
  let w' := {| files := <["/data/extracted/EMEA.de-en.xml" := "<tmx/>"]> (files w);
               open_handles := ["/tmp/lock"] |} in
  Forall (λ item,
            files w !! source_file item = files w' !! source_file item
            ∧ files w !! target_file item = files w' !! target_file item)
         [sample_item]
  ∧ (Opus_generate_examples sample_builder [sample_item] w).1
    = (Opus_generate_examples sample_builder [sample_item] w').1.
Proof.
  intros w w'.
  assert (Forall (λ item,
                    files w !! source_file item = files w' !! source_file item
                    ∧ files w !! target_file item = files w' !! target_file item)
                 [sample_item]) as Hagree.
  { repeat constructor; vm_compute; reflexivity. }
  split; [exact Hagree |].
  exact (Opus_generate_examples_reads_only_subset_files sample_builder
           [sample_item] w w' Hagree).
Defined.

(** ** Language lists with repeated codes *)

(** X17: the derived pairs hold a pair of two equal codes exactly when the
    language list repeats a code; in particular a list of distinct codes
    never makes the source and target of a supported pair coincide. *)
Theorem derive_language_pairs_same_code_iff_repeated (languages : list string) :
  (∃ code, (code, code) ∈ derive_language_pairs languages) ↔ ¬ NoDup languages.
Proof.
  split.
  - intros (code & Hin) Hnd.
    by apply (derive_language_pairs_distinct languages code code Hnd Hin).
  - induction languages as [|a l IH]; intros Hdup.
    + destruct Hdup. constructor.
    + destruct (decide (a ∈ l)) as [Hin | Hnin].
      * exists a. rewrite derive_language_pairs_cons, elem_of_app. left.
        apply list_elem_of_fmap. by exists a.
      * destruct IH as [code Hcode].
        { intros Hnd. apply Hdup. by constructor. }
        exists code. rewrite derive_language_pairs_cons, elem_of_app.
        by right.
Qed.

(** ** Paths of resolved subsets *)

Lemma os_path_join_relative (dir b : string) :
  startswith_sep b = false →
  ∃ sep, (sep = EmptyString ∨ sep = "/") ∧ os_path_join dir b = dir +:+ sep +:+ b.
Proof.
  intros Hb. unfold os_path_join. rewrite Hb.
  destruct (negb (truthy dir) || endswith_sep dir).
  - exists EmptyString. split; [by left | done].
  - exists "/". split; [by right | done].
Qed.

(** X18: every subset handed to the generator comes from one catalogue
    corpus whose archive, the corpus url followed by "source-target.txt.zip",
    the download manager unpacked into some directory; the source path and
    the target path of the subset both lie under that directory, with at most
    one separator added, and end in "filename.source-target.source" and
    "filename.source-target.target". *)
Theorem resolved_paths_lie_under_download_dir (self : Opus)
    (dl_manager dl_manager' : DownloadManager)
    (splits : list SplitGenerator) (split : SplitGenerator)
    (item : ResolvedSubset) :
  let source := (language_pair (builder_config self)).1 in
  let target := (language_pair (builder_config self)).2 in
  Opus_split_generators self dl_manager = (Ok splits, dl_manager') →
  split ∈ splits →
  item ∈ gen_kwargs split →
  ∃ ds dl_dir sep,
    DATASET_MAP !! subset_name item = Some ds
    ∧ extract_dir dl_manager
        (url ds +:+ (source +:+ "-" +:+ target) +:+ ".txt.zip") = Ok dl_dir
    ∧ (sep = EmptyString ∨ sep = "/")
    ∧ source_file item
      = dl_dir +:+ sep +:+ filename ds +:+ "." +:+ (source +:+ "-" +:+ target)
               +:+ "." +:+ source
    ∧ target_file item
      = dl_dir +:+ sep +:+ filename ds +:+ "." +:+ (source +:+ "-" +:+ target)
               +:+ "." +:+ target.
Proof.
  intros source target Hrun Hsplit Hitem.
  rewrite Opus_split_generators_eq in Hrun. cbv zeta in Hrun.
  fold source target in Hrun.
  destruct (Opus_subsets self) as [items|] eqn:Hsub; [|done].
  destruct (split_loop _ _ _ _ _ _) as [[rs|] dl1] eqn:Hloop; [|done].
  injection Hrun as <- <-.
  apply list_elem_of_singleton in Hsplit as ->. simpl in Hitem.
  apply split_loop_inv in Hloop as (dirs & Hdirs & -> & _). simpl in Hitem.
  apply elem_of_lookup_zip_with in Hitem as (i & dir & ds & -> & Hdir & Hds).
  pose proof (Forall2_lookup_lr _ _ _ _ _ _ Hdirs Hds Hdir) as Hextract.
  destruct (Opus_subsets_members self items ds Hsub)
    as (key & _ & Hmap & Hsup); [by eapply list_elem_of_lookup_2 |].
  fold source target in Hsup.
  destruct (DATASET_MAP_shape key ds Hmap) as (_ & Hstart & Htruthy & _).
  unfold locator_of in Hextract.
  rewrite (catalogue_locator key ds source target Hmap Hsup) in Hextract.
  destruct (os_path_join_relative dir
              (filename ds +:+ "." +:+ (source +:+ "-" +:+ target)
                 +:+ "." +:+ source)) as (sep & Hsep & Hjoin);
    [by rewrite startswith_sep_app |].
  exists ds, dir, sep. simpl.
  rewrite (DATASET_MAP_name key ds Hmap).
  split_and!; [done | done | done | done |].
  unfold os_path_join in *.
  rewrite startswith_sep_app in * by done. rewrite Hstart in *.
  destruct (negb (truthy dir) || endswith_sep dir).
  - apply (inj (String.app dir)) in Hjoin.
    destruct Hsep as [-> | ->]; [done |].
    exfalso. destruct (filename ds) as [|c rest]; [done |].
    simpl in Hstart. injection Hjoin as -> _. done.
  - apply (inj (String.app dir)) in Hjoin.
    destruct Hsep as [-> | ->]; [|done].
    exfalso. destruct (filename ds) as [|c rest]; [done |].
    simpl in Hstart. injection Hjoin as <- _. done.
Qed.

(** Instance: the sample subset, unpacked under "/data/extracted". *)
Lemma resolved_paths_lie_under_download_dir_witness :
  let split := {| split_name := TRAIN; gen_kwargs := [sample_item] |} in
  let manager' :=
    record_download
      ["http://opus.nlpl.eu/download.php?f=EMEA/v3/moses/de-en.txt.zip"]
      sample_manager in
  Opus_split_generators sample_builder sample_manager = (Ok [split], manager')
  ∧ split ∈ [split]
  ∧ sample_item ∈ gen_kwargs split
  ∧ ∃ ds dl_dir sep,
      DATASET_MAP !! subset_name sample_item = Some ds
      ∧ extract_dir sample_manager
          (url ds +:+ ("de" +:+ "-" +:+ "en") +:+ ".txt.zip") = Ok dl_dir
      ∧ (sep = EmptyString ∨ sep = "/")
      ∧ source_file sample_item
        = dl_dir +:+ sep +:+ filename ds +:+ "." +:+ ("de" +:+ "-" +:+ "en")
                 +:+ "." +:+ "de"
      ∧ target_file sample_item
        = dl_dir +:+ sep +:+ filename ds +:+ "." +:+ ("de" +:+ "-" +:+ "en")
                 +:+ "." +:+ "en".
Proof.
  intros split manager'.
  assert (Opus_split_generators sample_builder sample_manager
          = (Ok [split], manager')) as Hrun
    by (vm_compute; reflexivity).
  assert (split ∈ [split]) as Hsplit by apply list_elem_of_here.
  assert (sample_item ∈ gen_kwargs split) as Hitem by apply list_elem_of_here.
  split; [exact Hrun |]. split; [exact Hsplit |]. split; [exact Hitem |].
  exact (resolved_paths_lie_under_download_dir sample_builder sample_manager
           manager' [split] split sample_item Hrun Hsplit Hitem).
Defined.
